(** * ssh_manager.py: the service-key codec, the fzf selector protocol and the
      top-level flow of the kitty SSH kitten, as a shallow embedding.

    Python [str] values are lists of Unicode code points.  Pure helpers that
    can raise in Python (tuple unpacking, indexing) return an [outcome];
    everything that talks to the outside (keychain, fzf, terminal, clipboard)
    runs in a state-and-exception monad over a [world] that scripts the
    collaborators' answers and records what the program did. *)

From Stdlib Require Import List NArith ZArith Bool String Ascii Lia.
Import ListNotations.

Set Implicit Arguments.

(** ** Python strings *)

Definition char := N.
Definition str := list char.

Definition lit (s : string) : str := map N_of_ascii (list_ascii_of_string s).
Abbreviation py s := (lit s%string) (only parsing).

Definition PIPE : char := 124%N.    (* "|" *)
Definition AT : char := 64%N.       (* "@" *)
Definition NL : char := 10%N.       (* "\n" *)
Definition LPAREN : char := 40%N.   (* "(" *)
Definition RPAREN : char := 41%N.   (* ")" *)

Fixpoint str_eqb (a b : str) : bool :=
  match a, b with
  | [], [] => true
  | x :: a', y :: b' => N.eqb x y && str_eqb a' b'
  | _, _ => false
  end.

(** [c in s] for a one-character needle. *)
Definition contains (c : char) (s : str) : bool := existsb (N.eqb c) s.

(** [x in xs] for a list of strings. *)
Definition in_list (x : str) (xs : list str) : bool := existsb (str_eqb x) xs.

(** [s.startswith(prefix)] *)
Fixpoint startswith (prefix s : str) : bool :=
  match prefix, s with
  | [], _ => true
  | p :: prefix', c :: s' => N.eqb p c && startswith prefix' s'
  | _ :: _, [] => false
  end.

(** [str.isspace] on one code point: the characters [str.strip()] removes. *)
Definition isspace (c : char) : bool :=
  (((0x09 <=? c) && (c <=? 0x0D)) || ((0x1C <=? c) && (c <=? 0x20))
   || (c =? 0x85) || (c =? 0xA0) || (c =? 0x1680)
   || ((0x2000 <=? c) && (c <=? 0x200A))
   || (c =? 0x2028) || (c =? 0x2029) || (c =? 0x202F) || (c =? 0x205F)
   || (c =? 0x3000))%N.

Fixpoint lstrip (s : str) : str :=
  match s with
  | [] => []
  | c :: s' => if isspace c then lstrip s' else s
  end.

Definition rstrip (s : str) : str := rev (lstrip (rev s)).

(** [s.strip()] *)
Definition strip (s : str) : str := rstrip (lstrip s).

(** [s.split(sep)] for a one-character separator: never an empty list. *)
Fixpoint split (sep : char) (s : str) : list str :=
  match s with
  | [] => [[]]
  | c :: s' =>
      if N.eqb c sep then [] :: split sep s'
      else match split sep s' with
           | l :: ls => (c :: l) :: ls
           | [] => [[c]]
           end
  end.

(** [s.split(sep, 1)]: at most one cut, at the first separator. *)
Fixpoint split1 (sep : char) (s : str) : list str :=
  match s with
  | [] => [[]]
  | c :: s' =>
      if N.eqb c sep then [[]; s']
      else match split1 sep s' with
           | l :: ls => (c :: l) :: ls
           | [] => [[c]]
           end
  end.

(** [sep.join(items)] *)
Fixpoint join (sep : str) (items : list str) : str :=
  match items with
  | [] => []
  | [x] => x
  | x :: rest => x ++ sep ++ join sep rest
  end.

(** ** Exceptions and results *)

Inductive exn : Type :=
| KittenError (msg : str)
| KeyboardInterrupt
| FileNotFoundError (msg : str)
| CalledProcessError (msg stderr : str)
| ValueError (msg : str)
| IndexError (msg : str)
| EOFError (msg : str)
| OSError (msg : str)
| AttributeError (msg : str)
| RuntimeError (msg : str).

(** [isinstance(e, Exception)]: [KeyboardInterrupt] derives from
    [BaseException] only. *)
Definition is_Exception (e : exn) : bool :=
  match e with
  | KeyboardInterrupt => false
  | _ => true
  end.

(** [str(e)] as used in the f-strings of the handlers. *)
Definition exn_str (e : exn) : str :=
  match e with
  | KittenError msg | FileNotFoundError msg | CalledProcessError msg _
  | ValueError msg | IndexError msg | EOFError msg | OSError msg
  | AttributeError msg | RuntimeError msg => msg
  | KeyboardInterrupt => []
  end.

Inductive outcome (A : Type) : Type :=
| Ok (a : A)
| Raise (e : exn).
Arguments Ok {A} a.
Arguments Raise {A} e.

(** Unpacking [a, b = xs]. *)
Definition unpack2 (xs : list str) : outcome (str * str) :=
  match xs with
  | [a; b] => Ok (a, b)
  | _ => Raise (ValueError (py "wrong number of values to unpack"))
  end.

(** ** Service-key codec *)

(** Lines 113-129. *)
Definition parse_service_name (service : str) : outcome (str * str * str) :=
  if contains PIPE service then
    match unpack2 (split1 PIPE service) with
    | Raise e => Raise e
    | Ok (friendly_name, connection) =>
        if contains AT connection then
          match unpack2 (split1 AT connection) with
          | Raise e => Raise e
          | Ok (username, hostname) => Ok (friendly_name, username, hostname)
          end
        else Ok (service, [], [])
    end
  else Ok (service, [], []).

(** Line 295: the key under which [add_ssh_to_keychain] stores an entry. *)
Definition service_key (friendly_name username hostname : str) : str :=
  friendly_name ++ py "|" ++ username ++ py "@" ++ hostname.

(** Python truthiness of a string. *)
Definition truthy (s : str) : bool :=
  match s with [] => false | _ :: _ => true end.

(** Lines 132-145. *)
Definition format_display_name (service : str) : outcome str :=
  match parse_service_name service with
  | Raise e => Raise e
  | Ok (friendly_name, username, hostname) =>
      if truthy username && truthy hostname then
        Ok (friendly_name ++ py " (" ++ username ++ py "@" ++ hostname ++ py ")")
      else Ok friendly_name
  end.

(** ** The outside world *)

(** What the program does to its surroundings, in order. *)
Inductive event : Type :=
| StdoutWrite (text : str)
| StderrWrite (text : str)
| DumpKeychain
| RunFzf (input_data : str)
| InputPrompt (prompt : str)       (* input() shows its prompt: on stdout, or on
                                      stderr when stdin and stdout are terminals *)
| GetpassPrompt (prompt : str)
| SecurityAdd (service password : str)
| SecurityFind (service : str)
| SecurityDelete (service : str)
| Pbcopy (text : str).

(** One attempt to read a line from /dev/tty: opening the device fails, or
    it opens and [readline] returns or raises. *)
Inductive tty_reply : Type :=
| TtyOpenFails (e : exn)
| TtyLine (r : outcome str).

(** The collaborators' answers and the record of what was done. *)
Record world : Type := mkWorld {
  keychain_dump : outcome str;             (* stdout of security dump-keychain | awk *)
  fzf : str -> outcome (Z * str);          (* lines 198-214: returncode and stdout of
                                              fzf on the given input, or what
                                              starting it raises *)
  tty : list tty_reply;
  stdin : list (outcome str);              (* answers of input() *)
  getpass_in : list (outcome str);         (* answers of getpass.getpass() *)
  security_add : str -> str -> outcome unit;
  security_find : str -> outcome str;
  security_delete : str -> outcome unit;
  pbcopy : str -> outcome unit;
  shell_path : str;                        (* PATH of get_shell_env() *)
  trace : list event
}.

Definition set_trace (t : list event) (w : world) : world :=
  mkWorld (keychain_dump w) (fzf w) (tty w) (stdin w) (getpass_in w)
          (security_add w) (security_find w) (security_delete w) (pbcopy w)
          (shell_path w) t.

Definition set_tty (q : list tty_reply) (w : world) : world :=
  mkWorld (keychain_dump w) (fzf w) q (stdin w) (getpass_in w)
          (security_add w) (security_find w) (security_delete w) (pbcopy w)
          (shell_path w) (trace w).

Definition set_stdin (q : list (outcome str)) (w : world) : world :=
  mkWorld (keychain_dump w) (fzf w) (tty w) q (getpass_in w)
          (security_add w) (security_find w) (security_delete w) (pbcopy w)
          (shell_path w) (trace w).

Definition set_getpass_in (q : list (outcome str)) (w : world) : world :=
  mkWorld (keychain_dump w) (fzf w) (tty w) (stdin w) q
          (security_add w) (security_find w) (security_delete w) (pbcopy w)
          (shell_path w) (trace w).

(** ** The monad of the effectful functions *)

Definition M (A : Type) : Type := world -> outcome A * world.

Definition ret {A : Type} (a : A) : M A := fun w => (Ok a, w).

Definition bind {A B : Type} (m : M A) (k : A -> M B) : M B :=
  fun w =>
    match m w with
    | (Ok a, w') => k a w'
    | (Raise e, w') => (Raise e, w')
    end.

Definition raise {A : Type} (e : exn) : M A := fun w => (Raise e, w).

Definition lift {A : Type} (r : outcome A) : M A := fun w => (r, w).

Definition emit (ev : event) : M unit :=
  fun w => (Ok tt, set_trace (trace w ++ [ev]) w).

(** [try: body except ...]: [handler e] is the first matching clause, or
    [None] when no clause matches and [e] keeps propagating.  An exception
    raised by the clause itself is not handled here. *)
Definition try_except {A : Type} (body : M A) (handler : exn -> option (M A)) : M A :=
  fun w =>
    match body w with
    | (Ok a, w') => (Ok a, w')
    | (Raise e, w') =>
        match handler e with
        | Some h => h w'
        | None => (Raise e, w')
        end
    end.

Declare Scope monad_scope.
Delimit Scope monad_scope with monad.
Notation "x <- m ;; k" := (bind m (fun x => k))
  (at level 61, m at next level, right associativity) : monad_scope.
Notation "' pat <- m ;; k" := (bind m (fun x => match x with pat => k end))
  (at level 61, pat pattern, m at next level, right associativity) : monad_scope.
Notation "m ;; k" := (bind m (fun _ => k))
  (at level 61, right associativity) : monad_scope.
Open Scope monad_scope.

(** [print(text)] and [print(text, file=sys.stderr)] *)
Definition print (text : str) : M unit := emit (StdoutWrite (text ++ [NL])).
Definition eprint (text : str) : M unit := emit (StderrWrite (text ++ [NL])).

(** [xs[i]] and [xs[-k]] *)
Definition index (xs : list str) (i : nat) : outcome str :=
  match nth_error xs i with
  | Some x => Ok x
  | None => Raise (IndexError (py "list index out of range"))
  end.

Definition index_back (xs : list str) (k : nat) : outcome str :=
  if (k <=? List.length xs)%nat then index xs (List.length xs - k)
  else Raise (IndexError (py "list index out of range")).

(** ** Terminal input *)

(** [open("/dev/tty")], the prompt, and [tty.readline()]; at end of file
    [readline] returns the empty string. *)
Definition tty_readline (prompt : str) : M str :=
  fun w =>
    match tty w with
    | TtyOpenFails e :: rest => (Raise e, set_tty rest w)
    | TtyLine r :: rest =>
        ((if truthy prompt then emit (StdoutWrite prompt) else ret tt);;
         lift r) (set_tty rest w)
    | [] =>
        ((if truthy prompt then emit (StdoutWrite prompt) else ret tt);;
         ret []) w
    end.

(** The built-in [input(prompt)]. *)
Definition input (prompt : str) : M str :=
  emit (InputPrompt prompt);;
  fun w =>
    match stdin w with
    | r :: rest => (r, set_stdin rest w)
    | [] => (Raise (EOFError (py "EOF when reading a line")), w)
    end.

(** [getpass.getpass(prompt)] *)
Definition getpass (prompt : str) : M str :=
  emit (GetpassPrompt prompt);;
  fun w =>
    match getpass_in w with
    | r :: rest => (r, set_getpass_in rest w)
    | [] => (Raise (EOFError []), w)
    end.

(** Lines 18-40. *)
Definition kitty_input (prompt : str) : M str :=
  try_except
    (response <- tty_readline prompt;;
     ret (strip response))
    (fun e =>
       if is_Exception e
       then Some (line <- input prompt;; ret (strip line))
       else None).

(** ** Secret-store gateway *)

(** Lines 148-181. *)
Definition get_existing_keys : M (list str) :=
  try_except
    (emit DumpKeychain;;
     output <- (fun w => (keychain_dump w, w));;
     if truthy output
     then ret (map strip
                 (filter (fun key => truthy (strip key)) (split NL (strip output))))
     else ret [])
    (fun e =>
       if is_Exception e
       then Some (raise (KittenError
                    (py "Error retrieving keychain keys: " ++ exn_str e)))
       else None).

(** ** Selector protocol *)

(** The loop [for i, display in enumerate(display_items)] with its test
    [display == target]: the first index that matches. *)
Fixpoint find_display (display_items : list str) (target : str) (i : nat) : option nat :=
  match display_items with
  | [] => None
  | display :: rest =>
      if str_eqb display target then Some i
      else find_display rest target (S i)
  end.

(** The list comprehension of line 196. *)
Fixpoint display_names (existing_keys : list str) : outcome (list str) :=
  match existing_keys with
  | [] => Ok []
  | key :: rest =>
      match format_display_name key with
      | Raise e => Raise e
      | Ok d =>
          match display_names rest with
          | Raise e => Raise e
          | Ok ds => Ok (d :: ds)
          end
      end
  end.

Definition DELETE_PREFIX : str := py "DELETE:".

Definition debug_matched (key : str) : str :=
  py "DEBUG: Matched! Returning existing key: '" ++ key ++ py "'".

Definition debug_new_name (new_name : str) : str :=
  py "DEBUG: New name entered: '" ++ new_name ++ py "'".

(** Lines 216-266: what the finished fzf run means. *)
Definition interpret (existing_keys display_items : list str)
    (returncode : Z) (stdout : str) : M (str * bool) :=
  let output := strip stdout in
  if startswith DELETE_PREFIX output then
    let display_name := skipn 7 output in
    match find_display display_items display_name 0 with
    | Some i =>
        key <- lift (index existing_keys i);;
        ret (key, true)
    | None => ret (display_name, true)
    end
  else if (returncode =? 130)%Z then ret ([], false)
  else
    let output_lines := split NL output in
    if (returncode =? 0)%Z then
      let selected_display :=
        match output_lines with [] => [] | _ :: _ => last output_lines [] end in
      selected_display <-
        (if negb (truthy selected_display) && (1 <? List.length output_lines)%nat
         then lift (index_back output_lines 2)
         else ret selected_display);;
      match find_display display_items selected_display 0 with
      | Some i =>
          key <- lift (index existing_keys i);;
          eprint (debug_matched key);;
          ret (key, false)
      | None => ret ([], false)
      end
    else if (returncode =? 1)%Z then
      let new_name := match output_lines with [] => [] | l :: _ => l end in
      eprint (debug_new_name new_name);;
      new_name <-
        (if contains LPAREN new_name && contains RPAREN new_name
            && contains AT new_name
         then head <- lift (index (split LPAREN new_name) 0);;
              ret (strip head)
         else ret new_name);;
      ret (new_name, false)
    else ret ([], false).

Definition fzf_not_found_message (e : exn) (current_path : str) : str :=
  py "fzf command not found: " ++ exn_str e ++ [NL]
  ++ py "Current PATH: " ++ current_path ++ [NL; NL]
  ++ py "To install fzf:" ++ [NL]
  ++ py "  brew install fzf" ++ [NL; NL]
  ++ py "Or if already installed, ensure it's in your PATH.".

(** Lines 184-279. *)
Definition select_key_with_fzf (existing_keys : list str) : M (str * bool) :=
  try_except
    (display_items <- lift (display_names existing_keys);;
     let input_data := join [NL] display_items in
     emit (RunFzf input_data);;
     '(returncode, stdout) <- (fun w => (fzf w input_data, w));;
     interpret existing_keys display_items returncode stdout)
    (fun e =>
       match e with
       | FileNotFoundError _ =>
           Some (current_path <- (fun w => (Ok (shell_path w), w));;
                 raise (KittenError (fzf_not_found_message e current_path)))
       | _ =>
           if is_Exception e
           then Some (raise (KittenError
                        (py "Error during fzf selection: " ++ exn_str e)))
           else None
       end).

(** ** Keychain and clipboard commands *)

Definition CHECK_MARK : str := [0x2713%N].
Definition CROSS_MARK : str := [0x274C%N].
Definition WARNING_SIGN : str := [0x26A0%N; 0xFE0F%N].

(** Lines 282-305. *)
Definition add_ssh_to_keychain (friendly_name username hostname password : str) : M unit :=
  let service := service_key friendly_name username hostname in
  try_except
    (emit (SecurityAdd service password);;
     (fun w => (security_add w service password, w));;
     print (CHECK_MARK ++ py " SSH connection '" ++ friendly_name ++ py "' ("
            ++ username ++ py "@" ++ hostname ++ py ") added successfully"))
    (fun e =>
       match e with
       | CalledProcessError _ stderr =>
           Some (raise (KittenError
                   (py "Error adding SSH connection to keychain: " ++ stderr)))
       | _ => None
       end).

(** Lines 308-333.  The command runs with [text=True], so [e.stderr] is a
    [str] and has no [decode]. *)
Definition get_password_from_keychain (service : str) : M str :=
  try_except
    (emit (SecurityFind service);;
     stdout <- (fun w => (security_find w service, w));;
     ret (strip stdout))
    (fun e =>
       match e with
       | CalledProcessError _ stderr =>
           Some (let error_msg :=
                   py "Could not retrieve password for '" ++ service ++ py "'" in
                 if truthy stderr
                 then raise (AttributeError
                               (py "'str' object has no attribute 'decode'"))
                 else raise (KittenError error_msg))
       | _ => None
       end).

(** Lines 336-356. *)
Definition delete_ssh_from_keychain (service : str) : M unit :=
  try_except
    (emit (SecurityDelete service);;
     (fun w => (security_delete w service, w));;
     '(friendly_name, username, hostname) <- lift (parse_service_name service);;
     print (CHECK_MARK ++ py " SSH connection '" ++ friendly_name ++ py "' ("
            ++ username ++ py "@" ++ hostname ++ py ") deleted successfully"))
    (fun e =>
       match e with
       | CalledProcessError _ stderr =>
           Some (raise (KittenError
                   (py "Error deleting SSH connection from keychain: " ++ stderr)))
       | _ => None
       end).

(** Lines 359-369. *)
Definition copy_to_clipboard (text : str) : M unit :=
  try_except
    (emit (Pbcopy text);;
     (fun w => (pbcopy w text, w)))
    (fun e =>
       match e with
       | CalledProcessError _ _ =>
           Some (raise (KittenError
                   (py "Failed to copy to clipboard: " ++ exn_str e)))
       | _ => None
       end).

(** ** Reconciliation flow *)

Definition PRESS_ENTER : str := NL :: py "Press Enter to continue...".
Definition CONFIRM_PROMPT : str :=
  NL :: py "Press Enter to DELETE, or type 'no' to cancel: ".

Definition cannot_delete_message (selected_key : str) : str :=
  py "Cannot delete: '" ++ selected_key ++ py "' does not exist".

(** Lines 382-386: the warning [confirm_delete] prints before it asks. *)
Definition warning_banner (service : str) : M unit :=
  '(friendly_name, username, hostname) <- lift (parse_service_name service);;
  print (NL :: WARNING_SIGN ++ py "  WARNING: About to DELETE SSH connection:");;
  print (py "  Name: " ++ friendly_name);;
  print (py "  Connection: " ++ username ++ py "@" ++ hostname);;
  print (py "This action cannot be undone!").

Section Flow.

(** The built-in [str.lower], whose Unicode case table is not part of the
    program. *)
Variable lower : str -> str.

(** Lines 372-394, after the warning. *)
Definition confirm_delete (service : str) : M bool :=
  warning_banner service;;
  line <- kitty_input CONFIRM_PROMPT;;
  let response := lower line in
  if str_eqb response [] || negb (in_list response [py "no"; py "n"])
  then ret true
  else print (CROSS_MARK ++ py " Deletion cancelled.");;
       ret false.

(** Lines 411-473: what [main] does with the selection. *)
Definition dispatch (existing_keys : list str) (selected_key : str)
    (is_delete : bool) : M str :=
  if negb (truthy selected_key) then ret []
  else if is_delete then
    if in_list selected_key existing_keys then
      confirmed <- confirm_delete selected_key;;
      (if confirmed
       then delete_ssh_from_keychain selected_key;;
            kitty_input PRESS_ENTER
       else kitty_input PRESS_ENTER);;
      ret []
    else raise (KittenError (cannot_delete_message selected_key))
  else if in_list selected_key existing_keys then
    '(friendly_name, username, hostname) <- lift (parse_service_name selected_key);;
    if negb (truthy username) || negb (truthy hostname)
    then raise (KittenError
                  (py "Invalid SSH connection format for '" ++ selected_key ++ py "'"))
    else
      password <- get_password_from_keychain selected_key;;
      print (CHECK_MARK ++ py " Connecting to '" ++ friendly_name ++ py "' ("
             ++ username ++ py "@" ++ hostname ++ py ")");;
      copy_to_clipboard password;;
      print (CHECK_MARK
             ++ py " Password copied to clipboard - paste it when prompted (Cmd+V)");;
      ret (py "kitty +kitten ssh -o UserKnownHostsFile=/dev/null -o StrictHostKeyChecking=no "
           ++ username ++ py "@" ++ hostname)
  else
    let friendly_name := selected_key in
    print (NL :: py " Creating new SSH connection: " ++ friendly_name);;
    username <- kitty_input (py "Enter SSH username: ");;
    let username := strip username in
    if negb (truthy username)
    then raise (KittenError (py "Username cannot be empty"))
    else
      hostname <- kitty_input (py "Enter SSH hostname: ");;
      let hostname := strip hostname in
      if negb (truthy hostname)
      then raise (KittenError (py "Hostname cannot be empty"))
      else
        password <- getpass (py "Enter SSH password (hidden): ");;
        if negb (truthy password)
        then raise (KittenError (py "Password cannot be empty"))
        else
          password_confirm <- getpass (py "Confirm password: ");;
          if negb (str_eqb password password_confirm)
          then raise (KittenError (py "Passwords do not match"))
          else
            add_ssh_to_keychain friendly_name username hostname password;;
            kitty_input PRESS_ENTER;;
            ret [].

(** Lines 405-473: the body of the [try] of [main]. *)
Definition main_try : M str :=
  existing_keys <- get_existing_keys;;
  '(selected_key, is_delete) <- select_key_with_fzf existing_keys;;
  dispatch existing_keys selected_key is_delete.

(** Lines 475-487: the three [except] clauses of [main]. *)
Definition main_except (e : exn) : option (M str) :=
  match e with
  | KittenError _ =>
      Some (eprint (NL :: CROSS_MARK ++ py " Error: " ++ exn_str e);;
            kitty_input PRESS_ENTER;;
            ret [])
  | KeyboardInterrupt => Some (ret [])
  | _ =>
      if is_Exception e
      then Some (eprint (NL :: CROSS_MARK ++ py " Unexpected error: " ++ exn_str e);;
                 kitty_input PRESS_ENTER;;
                 ret [])
      else None
  end.

(** Lines 397-487. *)
Definition main : M str := try_except main_try main_except.

End Flow.

(** [str.lower] restricted to ASCII letters, for running the model. *)
Definition ascii_lower (s : str) : str :=
  map (fun c => if ((65 <=? c) && (c <=? 90))%N then (c + 32)%N else c) s.

(** A world with the given keychain dump, fzf result and terminal replies,
    in which every other collaborator succeeds with empty answers. *)
Definition scripted (dump : outcome str) (run : outcome (Z * str))
    (replies : list tty_reply) : world :=
  mkWorld dump (fun _ => run) replies [] []
          (fun _ _ => Ok tt) (fun _ => Ok []) (fun _ => Ok tt) (fun _ => Ok tt)
          (py "/usr/bin:/bin") [].

(** The keychain cannot be listed, and the user answers the pause that
    follows the error message with Ctrl+C. *)
Definition interrupted_pause : world :=
  scripted (Raise (FileNotFoundError (py "[Errno 2] No such file or directory: 'security'")))
           (Ok (0%Z, [])) [TtyLine (Raise KeyboardInterrupt)].

(** ** Environment and tool lookup *)

(** A [dict] from strings to strings, in insertion order. *)
Definition dict : Type := list (str * str).

(** [d.get(key, default)] *)
Fixpoint dict_get (d : dict) (key default : str) : str :=
  match d with
  | [] => default
  | (k, v) :: d' => if str_eqb k key then v else dict_get d' key default
  end.

(** [d[key] = value] *)
Fixpoint dict_set (d : dict) (key value : str) : dict :=
  match d with
  | [] => [(key, value)]
  | (k, v) :: d' =>
      if str_eqb k key then (k, value) :: d' else (k, v) :: dict_set d' key value
  end.

Definition COLON : char := 58%N.    (* ":" *)

(** Lines 53-58. *)
Definition homebrew_paths : list str :=
  [py "/opt/homebrew/bin"; py "/usr/local/bin";
   py "/opt/homebrew/sbin"; py "/usr/local/sbin"].

(** Lines 65-67: the loop, with [path_exists p] for [Path(p).exists()]. *)
Fixpoint add_brew_paths (path_exists : str -> bool) (brew_paths path_parts : list str)
    : list str :=
  match brew_paths with
  | [] => path_parts
  | brew_path :: rest =>
      add_brew_paths path_exists rest
        (if path_exists brew_path && negb (in_list brew_path path_parts)
         then brew_path :: path_parts
         else path_parts)
  end.

(** Lines 43-72, with [environ] for [os.environ]. *)
Definition get_shell_env (path_exists : str -> bool) (environ : dict) : dict :=
  let env := environ in
  let current_path := dict_get env (py "PATH") [] in
  let path_parts := if truthy current_path then split COLON current_path else [] in
  let path_parts := add_brew_paths path_exists homebrew_paths path_parts in
  dict_set env (py "PATH") (join [COLON] path_parts).

(** Lines 104-107: the first common location that is a file. *)
Fixpoint first_file (is_file : str -> bool) (common_paths : list str) : option str :=
  match common_paths with
  | [] => None
  | fzf_path :: rest =>
      if is_file fzf_path then Some fzf_path else first_file is_file rest
  end.

(** Lines 75-110.  [which] is what [get_shell_env()] followed by the run of
    `which fzf` gives: returncode and stdout, or an exception; [home_fzf] is
    [Path.home() / ".fzf/bin/fzf"] as a string, or what [Path.home()]
    raises; [is_file p] is [Path(p).exists() and Path(p).is_file()]. *)
Definition find_fzf_path (which : outcome (Z * str)) (home_fzf : outcome str)
    (is_file : str -> bool) : outcome str :=
  let found :=
    match which with
    | Ok (returncode, stdout) =>
        if (returncode =? 0)%Z && truthy (strip stdout)
        then Some (Ok (strip stdout))
        else None
    | Raise e => if is_Exception e then None else Some (Raise e)
    end in
  match found with
  | Some r => r
  | None =>
      match home_fzf with
      | Raise e => Raise e
      | Ok home_path =>
          let common_paths :=
            [py "/opt/homebrew/bin/fzf"; py "/usr/local/bin/fzf"; home_path] in
          match first_file is_file common_paths with
          | Some fzf_file => Ok fzf_file
          | None => Ok (py "fzf")
          end
      end
  end.

(** ** Result handler *)

(** What [handle_result] does to a window. *)
Inductive window_action : Type :=
| Paste (window : nat) (text : str)
| SendKey (window : nat) (key : str).

(** Lines 493-513, with [window_id_map id] for
    [boss.window_id_map.get(id)]. *)
Definition handle_result (answer : str) (target_window_id : nat)
    (window_id_map : nat -> option nat) : list window_action :=
  match window_id_map target_window_id with
  | None => []
  | Some w =>
      if truthy answer then [Paste w answer; SendKey w (py "Enter")] else []
  end.

(** ** Notions the properties are stated with *)

(** The display list of a key list ([display_names] never raises, see
    [display_names_rendered]). *)
Definition rendered (existing_keys : list str) : list str :=
  match display_names existing_keys with
  | Ok display_items => display_items
  | Raise _ => []
  end.

(** The text handed to fzf, and the world once fzf has run. *)
Definition input_data (existing_keys : list str) : str :=
  join [NL] (rendered existing_keys).

Definition ran_fzf (existing_keys : list str) (w : world) : world :=
  set_trace (trace w ++ [RunFzf (input_data existing_keys)]) w.

(** The last non-empty line of a text; the empty string when it has none. *)
Definition last_nonempty_line (output : str) : str :=
  last (filter truthy (split NL output)) [].

(** The part of a string before the first occurrence of a character; the
    whole string when the character does not occur. *)
Fixpoint before_first (sep : char) (s : str) : str :=
  match s with
  | [] => []
  | c :: s' => if N.eqb c sep then [] else c :: before_first sep s'
  end.

(** The interpretation that takes the last line of the stripped output as
    the selection and never looks at the line before it. *)
Definition interpret_last_line (existing_keys display_items : list str)
    (returncode : Z) (stdout : str) : M (str * bool) :=
  let output := strip stdout in
  if startswith DELETE_PREFIX output then
    let display_name := skipn 7 output in
    match find_display display_items display_name 0 with
    | Some i =>
        key <- lift (index existing_keys i);;
        ret (key, true)
    | None => ret (display_name, true)
    end
  else if (returncode =? 130)%Z then ret ([], false)
  else
    let output_lines := split NL output in
    if (returncode =? 0)%Z then
      let selected_display := last output_lines [] in
      match find_display display_items selected_display 0 with
      | Some i =>
          key <- lift (index existing_keys i);;
          eprint (debug_matched key);;
          ret (key, false)
      | None => ret ([], false)
      end
    else if (returncode =? 1)%Z then
      let new_name := match output_lines with [] => [] | l :: _ => l end in
      eprint (debug_new_name new_name);;
      new_name <-
        (if contains LPAREN new_name && contains RPAREN new_name
            && contains AT new_name
         then head <- lift (index (split LPAREN new_name) 0);;
              ret (strip head)
         else ret new_name);;
      ret (new_name, false)
    else ret ([], false).

(** The keychain entries a trace deletes. *)
Fixpoint deletions (t : list event) : list str :=
  match t with
  | [] => []
  | SecurityDelete service :: t' => service :: deletions t'
  | _ :: t' => deletions t'
  end.

(** The commands of a trace that change the keychain. *)
Definition is_store_write (ev : event) : bool :=
  match ev with
  | SecurityAdd _ _ | SecurityDelete _ => true
  | _ => false
  end.

Definition store_writes (t : list event) : list event := filter is_store_write t.

(** Running [m] in [w] issues exactly the keychain changes [ws]. *)
Definition writes_of {A : Type} (m : M A) (w : world) (ws : list event) : Prop :=
  store_writes (trace (snd (m w))) = store_writes (trace w) ++ ws.

(** [m] never changes the keychain. *)
Definition silent {A : Type} (m : M A) : Prop := forall w, writes_of m w [].

(** The keychain changes of [m] in [w] satisfy [P]. *)
Definition writes_sat {A : Type} (P : list event -> Prop) (m : M A) (w : world) : Prop :=
  exists ws, writes_of m w ws /\ P ws.

(** The keychain changes a run of the flow may make for a selection: none,
    the deletion of the selected listed key, or the addition of an entry
    under a selected new name. *)
Definition allowed_writes (keys : list str) (selected : str) (is_delete : bool)
    (ws : list event) : Prop :=
  ws = []
  \/ (ws = [SecurityDelete selected] /\ is_delete = true /\ In selected keys)
  \/ (exists username hostname password,
         ws = [SecurityAdd (service_key selected username hostname) password]
         /\ is_delete = false /\ ~ In selected keys /\ selected <> []
         /\ username <> [] /\ hostname <> [] /\ password <> []).

(** The world after the events [evs]. *)
Definition logged (evs : list event) (w : world) : world :=
  set_trace (trace w ++ evs) w.

(** Every value [m] returns satisfies [P]. *)
Definition returns_only {A : Type} (P : A -> Prop) (m : M A) : Prop :=
  forall w a w', m w = (Ok a, w') -> P a.

(** The command line [main] returns for a connection. *)
Definition ssh_command (username hostname : str) : str :=
  py "kitty +kitten ssh -o UserKnownHostsFile=/dev/null -o StrictHostKeyChecking=no "
  ++ username ++ py "@" ++ hostname.

(** ** Facts about the string helpers *)

Lemma str_eqb_refl (a : str) : str_eqb a a = true.
Proof.
  induction a as [|x a IH]; simpl; [reflexivity|].
  now rewrite N.eqb_refl, IH.
Qed.

Lemma str_eqb_eq (a b : str) : str_eqb a b = true <-> a = b.
Proof.
  split.
  - revert b; induction a as [|x a IH]; intros [|y b]; simpl; try discriminate; auto.
    intros H. apply andb_true_iff in H as [Hx Hr].
    apply N.eqb_eq in Hx. f_equal; auto.
  - intros ->. apply str_eqb_refl.
Qed.

Lemma str_eqb_neq (a b : str) : str_eqb a b = false <-> a <> b.
Proof.
  split.
  - intros H E. apply str_eqb_eq in E. congruence.
  - intros H. destruct (str_eqb a b) eqn:E; [|reflexivity].
    apply str_eqb_eq in E. contradiction.
Qed.

Lemma contains_In (c : char) (s : str) : contains c s = true <-> In c s.
Proof.
  unfold contains. rewrite existsb_exists. split.
  - intros [x [Hin Heq]]. apply N.eqb_eq in Heq. now subst.
  - intros H. exists c. split; [assumption | apply N.eqb_refl].
Qed.

Lemma contains_false (c : char) (s : str) : contains c s = false <-> ~ In c s.
Proof.
  rewrite <- contains_In. destruct (contains c s); split; intros; congruence.
Qed.

Lemma contains_mid (c : char) (a b : str) : contains c (a ++ c :: b) = true.
Proof. apply contains_In, in_elt. Qed.

Lemma split1_cut (sep : char) (a b : str) :
  ~ In sep a -> split1 sep (a ++ sep :: b) = [a; b].
Proof.
  induction a as [|c a IH]; simpl; intros H.
  - now rewrite N.eqb_refl.
  - destruct (N.eqb c sep) eqn:E.
    + apply N.eqb_eq in E. exfalso. apply H. now left.
    + rewrite IH; [reflexivity|]. intros Hin. apply H. now right.
Qed.

(** Every string with a separator cuts at its first occurrence. *)
Lemma first_occurrence (sep : char) (s : str) :
  In sep s -> exists a b, s = a ++ sep :: b /\ ~ In sep a.
Proof.
  induction s as [|c s IH]; simpl; [tauto|].
  intros H. destruct (N.eq_dec c sep) as [->|Hne].
  - exists [], s. split; [reflexivity | auto].
  - destruct H as [H|H]; [contradiction|].
    destruct (IH H) as (a & b & -> & Ha).
    exists (c :: a), b. split; [reflexivity|].
    intros [E|E]; [congruence | contradiction].
Qed.

(** *** The codec *)

Lemma parse_service_name_no_pipe (service : str) :
  ~ In PIPE service -> parse_service_name service = Ok (service, [], []).
Proof.
  intros H. unfold parse_service_name.
  apply contains_false in H. now rewrite H.
Qed.

Lemma parse_service_name_cut (a b : str) :
  ~ In PIPE a ->
  parse_service_name (a ++ PIPE :: b) =
  if contains AT b then
    match unpack2 (split1 AT b) with
    | Raise e => Raise e
    | Ok (username, hostname) => Ok (a, username, hostname)
    end
  else Ok (a ++ PIPE :: b, [], []).
Proof.
  intros Ha. unfold parse_service_name.
  rewrite contains_mid, split1_cut by assumption. reflexivity.
Qed.

(** Decoding is total: neither unpacking can fail. *)
Lemma parse_service_name_total (service : str) :
  exists name user host, parse_service_name service = Ok (name, user, host).
Proof.
  destruct (contains PIPE service) eqn:Hp.
  - apply contains_In in Hp. destruct (first_occurrence _ _ Hp) as (a & b & -> & Ha).
    rewrite parse_service_name_cut by assumption.
    destruct (contains AT b) eqn:Hat.
    + apply contains_In in Hat.
      destruct (first_occurrence _ _ Hat) as (u & h & -> & Hu).
      rewrite split1_cut by assumption. simpl. eauto.
    + eauto.
  - apply contains_false in Hp. rewrite parse_service_name_no_pipe; eauto.
Qed.

Lemma format_display_name_total (service : str) :
  exists d, format_display_name service = Ok d.
Proof.
  unfold format_display_name.
  destruct (parse_service_name_total service) as (n & u & h & ->).
  destruct (truthy u && truthy h); eauto.
Qed.

(** C2: a key without "|", or whose part after the first "|" has no "@",
    decodes to the whole key with empty user and host, and decoding does
    not raise. *)
Theorem parse_service_name_fallback (key : str) :
  (~ In PIPE key
   \/ exists name rest, key = name ++ PIPE :: rest /\ ~ In PIPE name /\ ~ In AT rest) ->
  parse_service_name key = Ok (key, [], []).
Proof.
  intros [H | (name & rest & -> & Hname & Hrest)].
  - now apply parse_service_name_no_pipe.
  - rewrite parse_service_name_cut by assumption.
    apply contains_false in Hrest. now rewrite Hrest.
Qed.

Lemma parse_service_name_fallback_witness :
  parse_service_name (py "name|no-at-sign") = Ok (py "name|no-at-sign", [], [])
  /\ parse_service_name (py "no-pipe-here") = Ok (py "no-pipe-here", [], []).
Proof.
  split.
  - apply parse_service_name_fallback. right.
    exists (py "name"), (py "no-at-sign"). split; [reflexivity|].
    split; rewrite <- contains_false; reflexivity.
  - apply parse_service_name_fallback. left.
    rewrite <- contains_false; reflexivity.
Defined.

(** C3: decoding the key built from (name, user, host) gives the triple
    back when name has no "|" and user has no "@". *)
Theorem parse_service_key_roundtrip (name user host : str) :
  ~ In PIPE name -> ~ In AT user ->
  parse_service_name (service_key name user host) = Ok (name, user, host).
Proof.
  intros Hn Hu. unfold service_key. change (py "|") with [PIPE].
  change (py "@") with [AT]. simpl app.
  rewrite parse_service_name_cut by assumption.
  rewrite contains_mid, split1_cut by assumption. reflexivity.
Qed.

Lemma parse_service_key_roundtrip_witness :
  parse_service_name (service_key (py "office") (py "carol") (py "h2"))
  = Ok (py "office", py "carol", py "h2").
Proof.
  apply parse_service_key_roundtrip; rewrite <- contains_false; reflexivity.
Defined.

(** ** The rendered list *)

Lemma display_names_Forall2 (existing_keys : list str) :
  exists display_items,
    display_names existing_keys = Ok display_items
    /\ Forall2 (fun key d => format_display_name key = Ok d) existing_keys display_items.
Proof.
  induction existing_keys as [|key rest (ds & Hds & HF)]; simpl.
  - exists []. split; [reflexivity | constructor].
  - destruct (format_display_name_total key) as [d Hd]. rewrite Hd, Hds.
    exists (d :: ds). split; [reflexivity | now constructor].
Qed.

Lemma display_names_rendered (existing_keys : list str) :
  display_names existing_keys = Ok (rendered existing_keys).
Proof.
  unfold rendered. destruct (display_names_Forall2 existing_keys) as (ds & -> & _).
  reflexivity.
Qed.

Lemma rendered_Forall2 (existing_keys : list str) :
  Forall2 (fun key d => format_display_name key = Ok d)
          existing_keys (rendered existing_keys).
Proof.
  destruct (display_names_Forall2 existing_keys) as (ds & Hds & HF).
  rewrite display_names_rendered in Hds. now injection Hds as ->.
Qed.

Lemma rendered_nth (existing_keys : list str) (i : nat) (d : str) :
  nth_error (rendered existing_keys) i = Some d ->
  exists key, nth_error existing_keys i = Some key /\ format_display_name key = Ok d.
Proof.
  generalize (rendered_Forall2 existing_keys).
  generalize (rendered existing_keys) as ds. intros ds HF. revert i.
  induction HF as [|key d' keys ds Hkd HF IH]; intros [|i] H; simpl in *; try discriminate.
  - injection H as ->. eauto.
  - now apply IH.
Qed.

Lemma nth_rendered (existing_keys : list str) (i : nat) (key : str) :
  nth_error existing_keys i = Some key ->
  exists d, nth_error (rendered existing_keys) i = Some d /\ format_display_name key = Ok d.
Proof.
  generalize (rendered_Forall2 existing_keys).
  generalize (rendered existing_keys) as ds. intros ds HF. revert i.
  induction HF as [|key' d keys ds Hkd HF IH]; intros [|i] H; simpl in *; try discriminate.
  - injection H as ->. eauto.
  - now apply IH.
Qed.

(** *** The enumerate loop *)

Lemma find_display_Some (items : list str) (target : str) (n i : nat) :
  find_display items target n = Some i ->
  exists j, i = (n + j)%nat /\ nth_error items j = Some target
            /\ forall j', (j' < j)%nat -> nth_error items j' <> Some target.
Proof.
  revert n. induction items as [|d items IH]; simpl; intros n H; [discriminate|].
  destruct (str_eqb d target) eqn:E.
  - injection H as <-. apply str_eqb_eq in E. subst d.
    exists 0%nat. repeat split; [lia | intros j' Hj; lia].
  - apply IH in H as (j & -> & Hnth & Hmin).
    exists (S j). repeat split; [lia | assumption |].
    intros [|j'] Hj; simpl.
    + apply str_eqb_neq in E. congruence.
    + apply Hmin. lia.
Qed.

Lemma find_display_None (items : list str) (target : str) (n : nat) :
  find_display items target n = None <-> ~ In target items.
Proof.
  revert n. induction items as [|d items IH]; simpl; intros n.
  - split; [tauto | reflexivity].
  - destruct (str_eqb d target) eqn:E.
    + apply str_eqb_eq in E. split; [discriminate | intros H; exfalso; auto].
    + apply str_eqb_neq in E. rewrite IH. tauto.
Qed.

Lemma index_Some (xs : list str) (i : nat) (x : str) :
  nth_error xs i = Some x -> index xs i = Ok x.
Proof. unfold index. now intros ->. Qed.

(** *** Stripping and splitting *)

Lemma lstrip_head (s t : str) (c : char) :
  lstrip s = c :: t -> isspace c = false.
Proof.
  induction s as [|a s IH]; simpl; [discriminate|].
  destruct (isspace a) eqn:E; [assumption|].
  intros H. injection H as <- _. assumption.
Qed.

Lemma strip_last (s t : str) (c : char) :
  strip s = t ++ [c] -> isspace c = false.
Proof.
  unfold strip, rstrip. intros H.
  apply (f_equal (@rev char)) in H. rewrite rev_involutive, rev_app_distr in H.
  simpl in H. eapply lstrip_head, H.
Qed.

Lemma split_not_nil (sep : char) (s : str) : split sep s <> [].
Proof.
  destruct s as [|c s]; simpl; [discriminate|].
  destruct (N.eqb c sep); [discriminate|].
  destruct (split sep s); discriminate.
Qed.

Lemma last_cons_not_nil (A : Type) (x : A) (l : list A) (d : A) :
  l <> [] -> last (x :: l) d = last l d.
Proof. destruct l; [congruence | reflexivity]. Qed.

Lemma split_last_nonempty (sep c : char) (t : str) :
  c <> sep -> last (split sep (t ++ [c])) [] <> [].
Proof.
  intros Hc. induction t as [|a t IH]; simpl.
  - destruct (N.eqb c sep) eqn:E; [apply N.eqb_eq in E; contradiction|].
    simpl. discriminate.
  - destruct (N.eqb a sep).
    + rewrite last_cons_not_nil by apply split_not_nil. exact IH.
    + destruct (split sep (t ++ [c])) as [|l ls] eqn:E.
      * discriminate.
      * destruct ls as [|l' ls]; [simpl; discriminate|].
        exact IH.
Qed.

Lemma not_nil_snoc (A : Type) (l : list A) :
  l <> [] -> exists t c, l = t ++ [c].
Proof.
  intros H. destruct (exists_last H) as (t & c & ->). eauto.
Qed.

(** The last line of a stripped, non-empty text is not empty. *)
Lemma stripped_last_line (stdout : str) :
  strip stdout <> [] -> last (split NL (strip stdout)) [] <> [].
Proof.
  intros H. destruct (not_nil_snoc H) as (t & c & E). rewrite E.
  apply split_last_nonempty. intros ->.
  apply strip_last in E. discriminate.
Qed.

(** Hence the test of line 245 always fails on stripped output. *)
Lemma no_fallback (stdout : str) :
  let output_lines := split NL (strip stdout) in
  negb (truthy (last output_lines [])) && (1 <? List.length output_lines)%nat = false.
Proof.
  simpl. destruct (strip stdout) as [|c s] eqn:E; [reflexivity|].
  assert (H : strip stdout <> []) by (rewrite E; discriminate).
  apply stripped_last_line in H. rewrite E in H.
  destruct (last (split NL (c :: s)) []); [congruence | reflexivity].
Qed.

Lemma last_filter_truthy (lines : list str) :
  last lines [] <> [] -> last (filter truthy lines) [] = last lines [].
Proof.
  induction lines as [|l lines IH]; [intros H; exfalso; now apply H|].
  destruct lines as [|l' lines].
  - intros H. destruct l as [|c l]; [exfalso; now apply H | reflexivity].
  - intros H. change (last (l :: l' :: lines) []) with (last (l' :: lines) []) in *.
    specialize (IH H). change (filter truthy (l :: l' :: lines))
      with (if truthy l then l :: filter truthy (l' :: lines)
            else filter truthy (l' :: lines)).
    destruct (truthy l); [|exact IH].
    rewrite last_cons_not_nil; [exact IH|].
    intros E. rewrite E in IH. apply H. now rewrite <- IH.
Qed.

Lemma split_head (sep : char) (s : str) :
  exists rest, split sep s = before_first sep s :: rest.
Proof.
  induction s as [|c s [rest IH]]; simpl; [now exists []|].
  destruct (N.eqb c sep); [eauto|]. rewrite IH. eauto.
Qed.

(** ** The interpretation, branch by branch *)

Lemma interpret_delete (keys items : list str) (rc : Z) (stdout : str) (w : world) :
  startswith DELETE_PREFIX (strip stdout) = true ->
  interpret keys items rc stdout w =
  match find_display items (skipn 7 (strip stdout)) 0 with
  | Some i =>
      match index keys i with
      | Ok key => (Ok (key, true), w)
      | Raise e => (Raise e, w)
      end
  | None => (Ok (skipn 7 (strip stdout), true), w)
  end.
Proof.
  intros H. unfold interpret. cbv zeta. rewrite H.
  destruct (find_display items (skipn 7 (strip stdout)) 0); [|reflexivity].
  unfold bind, lift, ret. destruct (index keys n); reflexivity.
Qed.

Lemma interpret_130 (keys items : list str) (stdout : str) (w : world) :
  startswith DELETE_PREFIX (strip stdout) = false ->
  interpret keys items 130 stdout w = (Ok ([], false), w).
Proof. intros H. unfold interpret. cbv zeta. rewrite H. reflexivity. Qed.

Lemma interpret_0 (keys items : list str) (stdout : str) (w : world) :
  startswith DELETE_PREFIX (strip stdout) = false ->
  interpret keys items 0 stdout w =
  match find_display items (last (split NL (strip stdout)) []) 0 with
  | Some i =>
      match index keys i with
      | Ok key =>
          (Ok (key, false),
           set_trace (trace w ++ [StderrWrite (debug_matched key ++ [NL])]) w)
      | Raise e => (Raise e, w)
      end
  | None => (Ok ([], false), w)
  end.
Proof.
  intros H. unfold interpret. cbv zeta. rewrite H.
  change (130 =? 130)%Z with true. change (0 =? 130)%Z with false.
  change (0 =? 0)%Z with true. cbv iota.
  assert (E : match split NL (strip stdout) with
              | [] => []
              | _ :: _ => last (split NL (strip stdout)) []
              end = last (split NL (strip stdout)) [])
    by (destruct (split NL (strip stdout)); reflexivity).
  rewrite E. pose proof (no_fallback stdout) as F. cbv zeta in F.
  unfold bind at 1. rewrite F. unfold ret at 1.
  destruct (find_display items (last (split NL (strip stdout)) []) 0); [|reflexivity].
  unfold bind, lift, ret, eprint, emit. destruct (index keys n); reflexivity.
Qed.

Lemma interpret_1 (keys items : list str) (stdout : str) (w : world) :
  startswith DELETE_PREFIX (strip stdout) = false ->
  let first_line := before_first NL (strip stdout) in
  interpret keys items 1 stdout w =
  (Ok (if contains LPAREN first_line && contains RPAREN first_line
          && contains AT first_line
       then strip (before_first LPAREN first_line)
       else first_line, false),
   set_trace (trace w ++ [StderrWrite (debug_new_name first_line ++ [NL])]) w).
Proof.
  intros H. unfold interpret. cbv zeta. rewrite H.
  change (1 =? 130)%Z with false. change (1 =? 0)%Z with false.
  change (1 =? 1)%Z with true. cbv iota.
  destruct (split_head NL (strip stdout)) as [rest ->].
  unfold bind, eprint, emit.
  destruct (contains LPAREN (before_first NL (strip stdout))
            && contains RPAREN (before_first NL (strip stdout))
            && contains AT (before_first NL (strip stdout))); [|reflexivity].
  destruct (split_head LPAREN (before_first NL (strip stdout))) as [rest' ->].
  reflexivity.
Qed.

Lemma interpret_other (keys items : list str) (rc : Z) (stdout : str) (w : world) :
  startswith DELETE_PREFIX (strip stdout) = false ->
  rc <> 130%Z -> rc <> 0%Z -> rc <> 1%Z ->
  interpret keys items rc stdout w = (Ok ([], false), w).
Proof.
  intros H H130 H0 H1. unfold interpret. cbv zeta. rewrite H.
  apply Z.eqb_neq in H130, H0, H1. rewrite H130, H0, H1. reflexivity.
Qed.

Lemma find_display_index (keys : list str) (target : str) (i : nat) :
  find_display (rendered keys) target 0 = Some i ->
  exists key, nth_error keys i = Some key /\ index keys i = Ok key
              /\ format_display_name key = Ok target
              /\ forall j key', (j < i)%nat -> nth_error keys j = Some key' ->
                                format_display_name key' <> Ok target.
Proof.
  intros H. apply find_display_Some in H as (j & -> & Hnth & Hmin). simpl.
  destruct (rendered_nth _ _ Hnth) as (key & Hkey & Hfmt).
  exists key. repeat split; auto using index_Some.
  intros j' key' Hlt Hk' Hf. destruct (nth_rendered _ _ Hk') as (d & Hd & Hfd).
  apply (Hmin j' Hlt). congruence.
Qed.

(** With the rendered list of the same keys, the interpretation returns. *)
Lemma interpret_returns (keys : list str) (rc : Z) (stdout : str) (w : world) :
  exists r w', interpret keys (rendered keys) rc stdout w = (Ok r, w').
Proof.
  destruct (startswith DELETE_PREFIX (strip stdout)) eqn:Hd.
  - rewrite interpret_delete by assumption.
    destruct (find_display (rendered keys) (skipn 7 (strip stdout)) 0) eqn:F; [|eauto].
    apply find_display_index in F as (key & _ & -> & _). eauto.
  - destruct (Z.eq_dec rc 130) as [->|H130]; [rewrite interpret_130; eauto|].
    destruct (Z.eq_dec rc 0) as [->|H0].
    + rewrite interpret_0 by assumption.
      destruct (find_display (rendered keys) (last (split NL (strip stdout)) []) 0) eqn:F;
        [|eauto].
      apply find_display_index in F as (key & _ & -> & _). eauto.
    + destruct (Z.eq_dec rc 1) as [->|H1].
      * pose proof (interpret_1 keys (rendered keys) stdout w Hd) as E.
        cbv zeta in E. rewrite E. eauto.
      * rewrite interpret_other; eauto.
Qed.

(** Once fzf has run, [select_key_with_fzf] is the interpretation of its
    result: neither [except] clause fires. *)
Lemma select_key_with_fzf_run (keys : list str) (rc : Z) (stdout : str) (w : world) :
  fzf w (input_data keys) = Ok (rc, stdout) ->
  select_key_with_fzf keys w
  = interpret keys (rendered keys) rc stdout (ran_fzf keys w).
Proof.
  intros H. unfold select_key_with_fzf, try_except, bind, lift, emit.
  rewrite display_names_rendered. fold (input_data keys). simpl fzf.
  rewrite H. fold (ran_fzf keys w).
  destruct (interpret_returns keys rc stdout (ran_fzf keys w)) as (r & w' & ->).
  reflexivity.
Qed.

(** ** The selector protocol *)

Lemma last_nonempty_line_stripped (stdout : str) :
  last_nonempty_line (strip stdout) = last (split NL (strip stdout)) [].
Proof.
  unfold last_nonempty_line. destruct (strip stdout) as [|c s] eqn:E; [reflexivity|].
  rewrite <- E. apply last_filter_truthy, stripped_last_line.
  rewrite E. discriminate.
Qed.

Lemma In_rendered (keys : list str) (d : str) :
  In d (rendered keys) <->
  exists key, In key keys /\ format_display_name key = Ok d.
Proof.
  split.
  - intros H. apply In_nth_error in H as [i Hi].
    destruct (rendered_nth _ _ Hi) as (key & Hk & Hf).
    exists key. split; [eapply nth_error_In; eassumption | assumption].
  - intros (key & Hin & Hf). apply In_nth_error in Hin as [i Hi].
    destruct (nth_rendered _ _ Hi) as (d' & Hd & Hf').
    assert (d' = d) by congruence. subst d'.
    eapply nth_error_In; eassumption.
Qed.

(** C1 (amended): when the stripped output does not start with "DELETE:",
    exit status 130 makes [select_key_with_fzf] return the empty selection
    with the delete flag false, whatever else the output holds. *)
Theorem select_cancel_on_130 (keys : list str) (stdout : str) (w : world) :
  fzf w (input_data keys) = Ok (130%Z, stdout) ->
  startswith DELETE_PREFIX (strip stdout) = false ->
  select_key_with_fzf keys w = (Ok ([], false), ran_fzf keys w).
Proof.
  intros Hrun Hd. rewrite (select_key_with_fzf_run _ _ Hrun).
  now apply interpret_130.
Qed.

Lemma select_cancel_on_130_witness :
  select_key_with_fzf [py "home|bob@h1"]
    (scripted (Ok []) (Ok (130%Z, py "home")) [])
  = (Ok ([], false),
     ran_fzf [py "home|bob@h1"] (scripted (Ok []) (Ok (130%Z, py "home")) [])).
Proof.
  apply (@select_cancel_on_130 [py "home|bob@h1"] (py "home")); reflexivity.
Defined.

(** C1 as stated fails: with exit status 130 and the output "DELETE:x" the
    selector returns the selection "x" with the delete flag true. *)
Lemma cancel_on_130_counterexample :
  ~ (forall (keys : list str) (stdout : str) (w : world),
        fzf w (input_data keys) = Ok (130%Z, stdout) ->
        fst (select_key_with_fzf keys w) = Ok ([], false)).
Proof.
  intros H.
  specialize (H [] (py "DELETE:x") (scripted (Ok []) (Ok (130%Z, py "DELETE:x")) [])
                eq_refl).
  vm_compute in H. discriminate H.
Qed.

(** C4 (amended): with exit status 0 and a stripped output that does not start with
    "DELETE:", the selection is the last non-empty line of the output; if it
    is the display name of an existing key, the selector returns the key at
    the first index whose display name equals it, delete flag false; if it
    is the display name of no key, the selector returns the empty selection,
    delete flag false, and raises nothing. *)
Theorem select_existing_on_0 (keys : list str) (stdout : str) (w : world) :
  fzf w (input_data keys) = Ok (0%Z, stdout) ->
  startswith DELETE_PREFIX (strip stdout) = false ->
  let selected := last_nonempty_line (strip stdout) in
  ((exists key, In key keys /\ format_display_name key = Ok selected) ->
   exists i key,
     nth_error keys i = Some key
     /\ format_display_name key = Ok selected
     /\ (forall j key', (j < i)%nat -> nth_error keys j = Some key' ->
                        format_display_name key' <> Ok selected)
     /\ fst (select_key_with_fzf keys w) = Ok (key, false))
  /\ ((forall key, In key keys -> format_display_name key <> Ok selected) ->
      select_key_with_fzf keys w = (Ok ([], false), ran_fzf keys w)).
Proof.
  intros Hrun Hd selected. subst selected.
  rewrite last_nonempty_line_stripped.
  rewrite (select_key_with_fzf_run _ _ Hrun), interpret_0 by assumption.
  set (selected := last (split NL (strip stdout)) []).
  split.
  - intros Hex. apply In_rendered in Hex.
    destruct (find_display (rendered keys) selected 0) as [i|] eqn:F.
    + destruct (find_display_index _ _ F) as (key & Hnth & Hidx & Hfmt & Hmin).
      exists i, key. rewrite Hidx. repeat split; assumption.
    + apply find_display_None in F. contradiction.
  - intros Hnone.
    destruct (find_display (rendered keys) selected 0) as [i|] eqn:F; [|reflexivity].
    destruct (find_display_index _ _ F) as (key & Hnth & _ & Hfmt & _).
    exfalso. apply (Hnone key); [eapply nth_error_In; eassumption | assumption].
Qed.

Lemma select_existing_on_0_witness :
  let keys := [py "broken"; py "home|bob@h1"] in
  let stdout := py "ho" ++ [NL] ++ py "home (bob@h1)" ++ [NL] in
  exists i key,
    nth_error keys i = Some key
    /\ format_display_name key = Ok (py "home (bob@h1)")
    /\ (forall j key', (j < i)%nat -> nth_error keys j = Some key' ->
                       format_display_name key' <> Ok (py "home (bob@h1)"))
    /\ fst (select_key_with_fzf keys (scripted (Ok []) (Ok (0%Z, stdout)) []))
       = Ok (key, false).
Proof.
  intros keys stdout.
  apply (proj1 (@select_existing_on_0 keys stdout
                  (scripted (Ok []) (Ok (0%Z, stdout)) []) eq_refl eq_refl)).
  exists (py "home|bob@h1"). split; [right; left; reflexivity | reflexivity].
Defined.

(** C4 as stated, on the output as fzf wrote it, fails twice.  With an
    empty query fzf writes an empty line before the item: the output does
    not start with "DELETE:", its last non-empty line "DELETE:old (a@b)" is
    the display name of a key, and the selector returns the delete selection
    "old (a@b)".  And a blank last line is a non-empty line that no key
    displays as, while the selector strips it and returns the key of the
    line before it. *)
Lemma select_existing_on_0_counterexample :
  ~ (forall (keys : list str) (stdout : str) (w : world),
        fzf w (input_data keys) = Ok (0%Z, stdout) ->
        startswith DELETE_PREFIX stdout = false ->
        (exists key, In key keys
                     /\ format_display_name key = Ok (last_nonempty_line stdout)) ->
        exists key,
          In key keys
          /\ format_display_name key = Ok (last_nonempty_line stdout)
          /\ fst (select_key_with_fzf keys w) = Ok (key, false))
  /\ ~ (forall (keys : list str) (stdout : str) (w : world),
           fzf w (input_data keys) = Ok (0%Z, stdout) ->
           startswith DELETE_PREFIX (strip stdout) = false ->
           (forall key, In key keys ->
                        format_display_name key <> Ok (last_nonempty_line stdout)) ->
           fst (select_key_with_fzf keys w) = Ok ([], false)).
Proof.
  split.
  - intros H.
    pose (stdout := NL :: py "DELETE:old (a@b)" ++ [NL]).
    destruct (H [py "DELETE:old|a@b"] stdout
                (scripted (Ok []) (Ok (0%Z, stdout)) []) eq_refl eq_refl)
      as (key & _ & _ & E).
    + exists (py "DELETE:old|a@b"). split; [now left | reflexivity].
    + vm_compute in E. discriminate E.
  - intros H.
    pose (stdout := py "home (bob@h1)" ++ [NL] ++ py " " ++ [NL]).
    assert (E := H [py "home|bob@h1"] stdout
                   (scripted (Ok []) (Ok (0%Z, stdout)) []) eq_refl eq_refl).
    assert (E' : fst (select_key_with_fzf [py "home|bob@h1"]
                        (scripted (Ok []) (Ok (0%Z, stdout)) []))
                 = Ok ([], false)).
    { apply E. intros key [<-|[]]. vm_compute. discriminate. }
    vm_compute in E'. discriminate E'.
Qed.

(** C5 (amended): with exit status 1 and a stripped output that does not start with
    "DELETE:", the selector returns the first line of the output with the
    delete flag false; when that line contains "(", ")" and "@", it returns
    instead what precedes the first "(", stripped of whitespace. *)
Theorem select_new_on_1 (keys : list str) (stdout : str) (w : world) :
  fzf w (input_data keys) = Ok (1%Z, stdout) ->
  startswith DELETE_PREFIX (strip stdout) = false ->
  let first_line := before_first NL (strip stdout) in
  fst (select_key_with_fzf keys w)
  = Ok (if contains LPAREN first_line && contains RPAREN first_line
           && contains AT first_line
        then strip (before_first LPAREN first_line)
        else first_line, false).
Proof.
  intros Hrun Hd first_line.
  rewrite (select_key_with_fzf_run _ _ Hrun).
  pose proof (interpret_1 keys (rendered keys) stdout (ran_fzf keys w) Hd) as E.
  cbv zeta in E. rewrite E. reflexivity.
Qed.

Lemma select_new_on_1_witness :
  fst (select_key_with_fzf [py "home|bob@h1"]
         (scripted (Ok []) (Ok (1%Z, py "weird (x@y)")) []))
  = Ok (py "weird", false)
  /\ fst (select_key_with_fzf [py "home|bob@h1"]
            (scripted (Ok []) (Ok (1%Z, py "newbox")) []))
     = Ok (py "newbox", false).
Proof.
  split.
  - apply (@select_new_on_1 [py "home|bob@h1"] (py "weird (x@y)")); reflexivity.
  - apply (@select_new_on_1 [py "home|bob@h1"] (py "newbox")); reflexivity.
Defined.

(** C5 as stated, on the output as fzf wrote it, fails twice.  The output
    " DELETE:x" does not start with "DELETE:" and the selector returns the
    delete selection "x".  And for the output " my box " the selector
    returns "my box", which is not the first line of the output. *)
Lemma select_new_on_1_counterexample :
  ~ (forall (keys : list str) (stdout : str) (w : world),
        fzf w (input_data keys) = Ok (1%Z, stdout) ->
        startswith DELETE_PREFIX stdout = false ->
        let first_line := before_first NL stdout in
        fst (select_key_with_fzf keys w)
        = Ok (if contains LPAREN first_line && contains RPAREN first_line
                 && contains AT first_line
              then strip (before_first LPAREN first_line)
              else first_line, false))
  /\ ~ (forall (keys : list str) (stdout : str) (w : world),
           fzf w (input_data keys) = Ok (1%Z, stdout) ->
           startswith DELETE_PREFIX (strip stdout) = false ->
           let first_line := before_first NL stdout in
           fst (select_key_with_fzf keys w)
           = Ok (if contains LPAREN first_line && contains RPAREN first_line
                    && contains AT first_line
                 then strip (before_first LPAREN first_line)
                 else first_line, false)).
Proof.
  split.
  - intros H.
    assert (E := H [] (py " DELETE:x" ++ [NL])
                   (scripted (Ok []) (Ok (1%Z, py " DELETE:x" ++ [NL])) [])
                   eq_refl eq_refl).
    vm_compute in E. discriminate E.
  - intros H.
    assert (E := H [] (py " my box " ++ [NL])
                   (scripted (Ok []) (Ok (1%Z, py " my box " ++ [NL])) [])
                   eq_refl eq_refl).
    vm_compute in E. discriminate E.
Qed.

(** C10: the last line of a non-empty stripped output is not empty, so the
    fallback to the line before it never fires, and the interpretation
    equals the one that takes the last line of the stripped output. *)
Theorem interpret_equals_last_line :
  (forall stdout : str,
      strip stdout <> [] -> last (split NL (strip stdout)) [] <> [])
  /\ (forall (keys items : list str) (rc : Z) (stdout : str) (w : world),
         interpret keys items rc stdout w
         = interpret_last_line keys items rc stdout w).
Proof.
  split; [exact stripped_last_line|].
  intros keys items rc stdout w. unfold interpret, interpret_last_line. cbv zeta.
  destruct (startswith DELETE_PREFIX (strip stdout)); [reflexivity|].
  destruct (rc =? 130)%Z; [reflexivity|].
  destruct (rc =? 0)%Z; [|reflexivity].
  assert (E : match split NL (strip stdout) with
              | [] => []
              | _ :: _ => last (split NL (strip stdout)) []
              end = last (split NL (strip stdout)) [])
    by (destruct (split NL (strip stdout)); reflexivity).
  rewrite E. pose proof (no_fallback stdout) as F. cbv zeta in F.
  unfold bind at 1. rewrite F. reflexivity.
Qed.

Lemma interpret_equals_last_line_witness :
  let stdout := py "  ho" ++ [NL] ++ py "home (bob@h1)" ++ [NL; NL] in
  last (split NL (strip stdout)) [] <> [].
Proof.
  intros stdout. apply (proj1 interpret_equals_last_line stdout).
  vm_compute. discriminate.
Defined.

(** ** The top-level flow *)

Lemma in_list_In (x : str) (xs : list str) : in_list x xs = true <-> In x xs.
Proof.
  unfold in_list. rewrite existsb_exists. split.
  - intros (y & Hin & E). apply str_eqb_eq in E. now subst.
  - intros H. exists x. split; [assumption | apply str_eqb_refl].
Qed.

Lemma in_list_false (x : str) (xs : list str) : in_list x xs = false <-> ~ In x xs.
Proof.
  rewrite <- in_list_In. destruct (in_list x xs); split; intros; congruence.
Qed.

Lemma deletions_app (a b : list event) :
  deletions (a ++ b) = deletions a ++ deletions b.
Proof.
  induction a as [|ev a IH]; simpl; [reflexivity|].
  destruct ev; simpl; now rewrite ?IH.
Qed.

Lemma get_existing_keys_world (w : world) :
  snd (get_existing_keys w) = set_trace (trace w ++ [DumpKeychain]) w.
Proof.
  unfold get_existing_keys, try_except, bind, emit, ret, raise. simpl.
  destruct (keychain_dump w) as [output|e].
  - destruct (truthy output); reflexivity.
  - destruct (is_Exception e); reflexivity.
Qed.

(** A selection that returns comes from a finished fzf run. *)
Lemma select_key_with_fzf_Ok (keys : list str) (r : str * bool) (w w' : world) :
  select_key_with_fzf keys w = (Ok r, w') ->
  exists rc stdout,
    fzf w (input_data keys) = Ok (rc, stdout)
    /\ interpret keys (rendered keys) rc stdout (ran_fzf keys w) = (Ok r, w').
Proof.
  destruct (fzf w (input_data keys)) as [[rc stdout]|e] eqn:Hrun.
  - rewrite (select_key_with_fzf_run _ _ Hrun). eauto.
  - unfold select_key_with_fzf, try_except, bind, lift, emit, raise.
    rewrite display_names_rendered. fold (input_data keys). simpl fzf.
    rewrite Hrun. destruct e; simpl; discriminate.
Qed.

Lemma interpret_deletions (keys : list str) (rc : Z) (stdout : str)
    (r : outcome (str * bool)) (w w' : world) :
  interpret keys (rendered keys) rc stdout w = (r, w') ->
  deletions (trace w') = deletions (trace w).
Proof.
  destruct (startswith DELETE_PREFIX (strip stdout)) eqn:Hd.
  - rewrite interpret_delete by assumption.
    destruct (find_display (rendered keys) (skipn 7 (strip stdout)) 0).
    + destruct (index keys n); intros H; injection H as _ <-; reflexivity.
    + intros H; injection H as _ <-; reflexivity.
  - destruct (Z.eq_dec rc 130) as [->|H130].
    { rewrite interpret_130 by assumption. intros H; injection H as _ <-; reflexivity. }
    destruct (Z.eq_dec rc 0) as [->|H0].
    { rewrite interpret_0 by assumption.
      destruct (find_display (rendered keys) (last (split NL (strip stdout)) []) 0).
      - destruct (index keys n); intros H; injection H as _ <-; [|reflexivity].
        simpl. rewrite deletions_app. simpl. apply app_nil_r.
      - intros H; injection H as _ <-; reflexivity. }
    destruct (Z.eq_dec rc 1) as [->|H1].
    { pose proof (interpret_1 keys (rendered keys) stdout w Hd) as E.
      cbv zeta in E. rewrite E. intros H; injection H as _ <-.
      simpl. rewrite deletions_app. simpl. apply app_nil_r. }
    rewrite interpret_other by assumption. intros H; injection H as _ <-; reflexivity.
Qed.

Lemma main_try_selected (lower : str -> str) (keys : list str) (key : str)
    (flag : bool) (w w1 w2 : world) :
  get_existing_keys w = (Ok keys, w1) ->
  select_key_with_fzf keys w1 = (Ok (key, flag), w2) ->
  main_try lower w = dispatch lower keys key flag w2.
Proof.
  intros Hk Hs. unfold main_try, bind. now rewrite Hk, Hs.
Qed.

(** C6 (amended): a delete selection that is not empty and is not one of
    the listed keys makes the flow raise the "Cannot delete" error, which
    [main] then reports; nothing is deleted from the keychain. *)
Theorem delete_unknown_entry (lower : str -> str) (keys : list str) (key : str)
    (w w1 w2 : world) :
  get_existing_keys w = (Ok keys, w1) ->
  select_key_with_fzf keys w1 = (Ok (key, true), w2) ->
  key <> [] -> ~ In key keys ->
  main_try lower w = (Raise (KittenError (cannot_delete_message key)), w2)
  /\ deletions (trace w2) = deletions (trace w)
  /\ main lower w
     = (eprint (NL :: CROSS_MARK ++ py " Error: " ++ cannot_delete_message key);;
        kitty_input PRESS_ENTER;;
        ret []) w2.
Proof.
  intros Hk Hs Hne Hnot.
  assert (Htry : main_try lower w
                 = (Raise (KittenError (cannot_delete_message key)), w2)).
  { rewrite (main_try_selected lower _ Hk Hs). unfold dispatch.
    destruct key as [|c key]; [congruence|]. simpl truthy. cbv iota.
    apply in_list_false in Hnot. rewrite Hnot. reflexivity. }
  split; [exact Htry|]. split.
  - destruct (select_key_with_fzf_Ok _ _ Hs) as (rc & stdout & _ & Hi).
    apply interpret_deletions in Hi. rewrite Hi.
    pose proof (get_existing_keys_world w) as Hw. rewrite Hk in Hw. simpl in Hw.
    subst w1. simpl. rewrite !deletions_app. simpl. now rewrite !app_nil_r.
  - unfold main, try_except. rewrite Htry. reflexivity.
Qed.

Lemma delete_unknown_entry_witness :
  let w := scripted (Ok (py "home|bob@h1")) (Ok (0%Z, py "DELETE:ghost")) [] in
  let w2 := snd (select_key_with_fzf [py "home|bob@h1"] (snd (get_existing_keys w))) in
  main_try ascii_lower w
  = (Raise (KittenError (cannot_delete_message (py "ghost"))), w2)
  /\ deletions (trace w2) = deletions (trace w)
  /\ main ascii_lower w
     = (eprint (NL :: CROSS_MARK ++ py " Error: "
                ++ cannot_delete_message (py "ghost"));;
        kitty_input PRESS_ENTER;;
        ret []) w2.
Proof.
  intros w w2.
  apply (@delete_unknown_entry ascii_lower [py "home|bob@h1"] (py "ghost")
           w (snd (get_existing_keys w)) w2).
  - reflexivity.
  - reflexivity.
  - discriminate.
  - rewrite <- in_list_false. reflexivity.
Defined.

(** C6 as stated fails: the output "DELETE:" with an empty key list gives a
    delete selection that is no listed key, and the flow returns the empty
    string without raising. *)
Lemma delete_unknown_entry_counterexample :
  ~ (forall (lower : str -> str) (keys : list str) (key : str) (w w1 w2 : world),
        get_existing_keys w = (Ok keys, w1) ->
        select_key_with_fzf keys w1 = (Ok (key, true), w2) ->
        ~ In key keys ->
        exists msg w', main_try lower w = (Raise (KittenError msg), w')).
Proof.
  intros H.
  pose (w := scripted (Ok []) (Ok (0%Z, py "DELETE:")) []).
  destruct (H ascii_lower [] [] w (snd (get_existing_keys w))
              (snd (select_key_with_fzf [] (snd (get_existing_keys w))))
              eq_refl eq_refl (fun F => F)) as (msg & w' & E).
  vm_compute in E. discriminate E.
Qed.

Lemma main_of_returning_try (lower : str -> str) (s : str) (w w' : world) :
  main_try lower w = (Ok s, w') -> main lower w = (Ok s, w').
Proof. intros H. unfold main, try_except. now rewrite H. Qed.

(** C9: an empty selection makes [main] return the empty string at once,
    whatever the delete flag; in particular the output "DELETE:" that
    matches no display item ends the flow right after the fzf run, with no
    prompt, no deletion and no error message. *)
Theorem empty_selection_is_silent (lower : str -> str) (keys : list str)
    (w w1 : world) :
  get_existing_keys w = (Ok keys, w1) ->
  (forall (flag : bool) (w2 : world),
      select_key_with_fzf keys w1 = (Ok ([], flag), w2) ->
      main lower w = (Ok [], w2))
  /\ (forall (rc : Z) (stdout : str),
         fzf w1 (input_data keys) = Ok (rc, stdout) ->
         strip stdout = DELETE_PREFIX ->
         ~ In [] (rendered keys) ->
         select_key_with_fzf keys w1 = (Ok ([], true), ran_fzf keys w1)
         /\ main lower w = (Ok [], ran_fzf keys w1)
         /\ trace (ran_fzf keys w1)
            = trace w ++ [DumpKeychain; RunFzf (input_data keys)]).
Proof.
  intros Hk.
  assert (Hempty : forall flag w2,
             select_key_with_fzf keys w1 = (Ok ([], flag), w2) ->
             main lower w = (Ok [], w2)).
  { intros flag w2 Hs. apply main_of_returning_try.
    rewrite (main_try_selected lower _ Hk Hs). reflexivity. }
  split; [exact Hempty|].
  intros rc stdout Hrun Hout Hnone.
  assert (Hs : select_key_with_fzf keys w1 = (Ok ([], true), ran_fzf keys w1)).
  { rewrite (select_key_with_fzf_run _ _ Hrun), interpret_delete
      by (rewrite Hout; reflexivity).
    rewrite Hout. change (skipn 7 DELETE_PREFIX) with (@nil char).
    apply (find_display_None _ _ 0) in Hnone. now rewrite Hnone. }
  split; [exact Hs|]. split; [now apply (Hempty true)|].
  pose proof (get_existing_keys_world w) as Hw. rewrite Hk in Hw. simpl in Hw.
  subst w1. simpl. now rewrite <- app_assoc.
Qed.

Lemma empty_selection_is_silent_witness :
  let w := scripted (Ok (py "home|bob@h1")) (Ok (0%Z, py "DELETE:")) [] in
  let keys := [py "home|bob@h1"] in
  let w1 := snd (get_existing_keys w) in
  select_key_with_fzf keys w1 = (Ok ([], true), ran_fzf keys w1)
  /\ main ascii_lower w = (Ok [], ran_fzf keys w1)
  /\ trace (ran_fzf keys w1) = trace w ++ [DumpKeychain; RunFzf (input_data keys)].
Proof.
  intros w keys w1.
  apply (proj2 (@empty_selection_is_silent ascii_lower keys w w1 eq_refl)
               0%Z (py "DELETE:")).
  - reflexivity.
  - reflexivity.
  - vm_compute. intros [H|[]]. discriminate H.
Defined.

(** *** The confirmation prompt *)

Lemma warning_banner_returns (service : str) (w : world) :
  exists wb, warning_banner service w = (Ok tt, wb).
Proof.
  unfold warning_banner, bind, lift.
  destruct (parse_service_name_total service) as (n & u & h & ->).
  eexists. reflexivity.
Qed.

(** C7: given the user's response to the confirmation prompt,
    [confirm_delete] returns False exactly when the lowercased response is
    "no" or "n"; the empty response and every other response return True. *)
Theorem confirm_delete_response (lower : str -> str) (service response : str)
    (w w' : world) :
  lower [] = [] ->
  kitty_input CONFIRM_PROMPT (snd (warning_banner service w)) = (Ok response, w') ->
  exists (b : bool) (w'' : world),
    confirm_delete lower service w = (Ok b, w'')
    /\ (response = [] -> b = true)
    /\ (b = false <-> lower response = py "no" \/ lower response = py "n")
    /\ (response <> [] -> lower response <> py "no" -> lower response <> py "n" ->
        b = true).
Proof.
  intros Hnil Hin.
  destruct (warning_banner_returns service w) as [wb Hb].
  rewrite Hb in Hin. simpl in Hin.
  unfold confirm_delete. unfold bind at 1. rewrite Hb.
  unfold bind at 1. rewrite Hin. unfold in_list, existsb.
  destruct (str_eqb (lower response) []) eqn:E0.
  - apply str_eqb_eq in E0. simpl orb. exists true, w'.
    split; [reflexivity|]. split; [reflexivity|]. split; [|reflexivity].
    rewrite E0. split; [discriminate | intros [H|H]; discriminate H].
  - apply str_eqb_neq in E0. simpl orb.
    destruct (str_eqb (lower response) (py "no")) eqn:E1.
    + apply str_eqb_eq in E1. simpl. eexists false, _.
      split; [reflexivity|]. split; [intros ->; congruence|].
      split; [tauto | intros _ H; contradiction].
    + apply str_eqb_neq in E1.
      destruct (str_eqb (lower response) (py "n")) eqn:E2.
      * apply str_eqb_eq in E2. simpl. eexists false, _.
        split; [reflexivity|]. split; [intros ->; congruence|].
        split; [tauto | intros _ _ H; contradiction].
      * apply str_eqb_neq in E2. simpl. exists true, w'.
        split; [reflexivity|]. split; [reflexivity|].
        split; [|reflexivity]. split; [discriminate | tauto].
Qed.

Lemma confirm_delete_response_witness :
  let w := scripted (Ok []) (Ok (0%Z, [])) [TtyLine (Ok (py " No" ++ [NL]))] in
  exists (b : bool) (w'' : world),
    confirm_delete ascii_lower (py "home|bob@h1") w = (Ok b, w'')
    /\ (py "No" = [] -> b = true)
    /\ (b = false <->
        ascii_lower (py "No") = py "no" \/ ascii_lower (py "No") = py "n")
    /\ (py "No" <> [] -> ascii_lower (py "No") <> py "no" ->
        ascii_lower (py "No") <> py "n" -> b = true).
Proof.
  intros w.
  apply (@confirm_delete_response ascii_lower (py "home|bob@h1") (py "No") w
           (snd (kitty_input CONFIRM_PROMPT
                   (snd (warning_banner (py "home|bob@h1") w))))).
  - reflexivity.
  - reflexivity.
Defined.

(** *** The catch-all of [main] *)


(** C8 fails on the code: when listing the keychain fails and the user
    answers the pause after the error message with Ctrl+C, [main] raises
    KeyboardInterrupt instead of returning a string. *)
Theorem main_interrupt_at_pause_propagates :
  main_try ascii_lower interrupted_pause
  = (Raise (KittenError
              (py "Error retrieving keychain keys: [Errno 2] No such file or directory: 'security'")),
     set_trace [DumpKeychain] interrupted_pause)
  /\ fst (main ascii_lower interrupted_pause) = Raise KeyboardInterrupt.
Proof. split; reflexivity. Qed.

(** ** More on the codec *)

Lemma service_key_cut (name user host : str) :
  service_key name user host = name ++ PIPE :: user ++ AT :: host.
Proof. reflexivity. Qed.

(** X1: a decoded key is either the encoding of the triple it decodes to,
    with a name free of "|" and a user free of "@", or a key that fell back
    to itself with empty user and host. *)
Theorem parse_service_name_inverse (key name user host : str) :
  parse_service_name key = Ok (name, user, host) ->
  (service_key name user host = key /\ ~ In PIPE name /\ ~ In AT user)
  \/ (name = key /\ user = [] /\ host = []).
Proof.
  destruct (contains PIPE key) eqn:Hp.
  - apply contains_In in Hp. destruct (first_occurrence _ _ Hp) as (a & b & -> & Ha).
    rewrite parse_service_name_cut by assumption.
    destruct (contains AT b) eqn:Hat.
    + apply contains_In in Hat.
      destruct (first_occurrence _ _ Hat) as (u & h & -> & Hu).
      rewrite split1_cut by assumption. simpl.
      intros H. injection H as <- <- <-. left. rewrite service_key_cut. auto.
    + intros H. injection H as <- <- <-. right. auto.
  - apply contains_false in Hp. rewrite parse_service_name_no_pipe by assumption.
    intros H. injection H as <- <- <-. right. auto.
Qed.

Lemma parse_service_name_inverse_witness :
  (service_key (py "work") (py "alice") (py "host1") = py "work|alice@host1"
   /\ ~ In PIPE (py "work") /\ ~ In AT (py "alice"))
  \/ (py "work" = py "work|alice@host1" /\ py "alice" = [] /\ py "host1" = []).
Proof.
  apply (@parse_service_name_inverse (py "work|alice@host1")). reflexivity.
Defined.

(** X2: the round trip through the key holds exactly when the name has no
    "|" and the user has no "@". *)
Theorem parse_service_key_roundtrip_iff (name user host : str) :
  parse_service_name (service_key name user host) = Ok (name, user, host)
  <-> ~ In PIPE name /\ ~ In AT user.
Proof.
  rewrite service_key_cut. split.
  - intros H.
    assert (Hn : ~ In PIPE name).
    { intros Hin. destruct (first_occurrence _ _ Hin) as (a & b & -> & Ha).
      rewrite <- app_assoc in H. simpl in H.
      rewrite parse_service_name_cut in H by assumption.
      replace (b ++ PIPE :: user ++ AT :: host)
        with ((b ++ PIPE :: user) ++ AT :: host) in H
        by (rewrite <- app_assoc; reflexivity).
      rewrite contains_mid in H.
      destruct (unpack2 (split1 AT ((b ++ PIPE :: user) ++ AT :: host)))
        as [[u h]|e]; [|discriminate].
      injection H as E _ _. apply (f_equal (@List.length char)) in E.
      rewrite length_app in E. simpl in E. lia. }
    split; [exact Hn|].
    rewrite parse_service_name_cut, contains_mid in H by assumption.
    intros Hin. destruct (first_occurrence _ _ Hin) as (c & d & -> & Hc).
    rewrite <- app_assoc in H. simpl in H.
    rewrite split1_cut in H by assumption. simpl in H.
    injection H as E _. apply (f_equal (@List.length char)) in E.
    rewrite length_app in E. simpl in E. lia.
  - intros [Hn Hu]. rewrite parse_service_name_cut by assumption.
    rewrite contains_mid, split1_cut by assumption. reflexivity.
Qed.

Lemma parse_service_key_roundtrip_iff_witness :
  parse_service_name (service_key (py "office") (py "carol") (py "h2"))
  = Ok (py "office", py "carol", py "h2").
Proof.
  apply (proj2 (parse_service_key_roundtrip_iff (py "office") (py "carol") (py "h2"))).
  split; rewrite <- contains_false; reflexivity.
Defined.

(** X3: a key built from a name without "|", a non-empty user without "@"
    and a non-empty host is displayed as "name (user@host)". *)
Theorem format_display_name_encoded (name user host : str) :
  ~ In PIPE name -> ~ In AT user -> user <> [] -> host <> [] ->
  format_display_name (service_key name user host)
  = Ok (name ++ py " (" ++ user ++ py "@" ++ host ++ py ")").
Proof.
  intros Hn Hu Hue Hhe. unfold format_display_name.
  rewrite service_key_cut, parse_service_name_cut by assumption.
  rewrite contains_mid, split1_cut by assumption. simpl unpack2. cbv iota beta.
  destruct user; [congruence|]. destruct host; [congruence|]. reflexivity.
Qed.

Lemma format_display_name_encoded_witness :
  format_display_name (service_key (py "work") (py "alice") (py "host1"))
  = Ok (py "work (alice@host1)").
Proof.
  apply (@format_display_name_encoded (py "work") (py "alice") (py "host1"));
    try discriminate; rewrite <- contains_false; reflexivity.
Defined.

(** X4: a key that does not decode is displayed as it is, and a key that
    decodes to an empty user or an empty host is displayed as its friendly
    name alone. *)
Theorem format_display_name_degraded (key name user host : str) :
  parse_service_name key = Ok (name, user, host) ->
  user = [] \/ host = [] ->
  format_display_name key = Ok name
  /\ ((~ In PIPE key
       \/ exists a rest, key = a ++ PIPE :: rest /\ ~ In PIPE a /\ ~ In AT rest) ->
      format_display_name key = Ok key).
Proof.
  intros Hparse Hempty.
  assert (Hd : format_display_name key = Ok name).
  { unfold format_display_name. rewrite Hparse.
    destruct Hempty as [-> | ->]; [reflexivity|].
    destruct (truthy user); reflexivity. }
  split; [exact Hd|].
  intros [Hno | (a & rest & -> & Ha & Hrest)].
  - rewrite parse_service_name_no_pipe in Hparse by assumption.
    injection Hparse as <- _ _. exact Hd.
  - rewrite parse_service_name_cut in Hparse by assumption.
    apply contains_false in Hrest. rewrite Hrest in Hparse.
    injection Hparse as <- _ _. exact Hd.
Qed.

Lemma format_display_name_degraded_witness :
  format_display_name (py "staging|@host9") = Ok (py "staging")
  /\ format_display_name (py "broken") = Ok (py "broken").
Proof.
  split.
  - apply (@format_display_name_degraded (py "staging|@host9") (py "staging")
             [] (py "host9") eq_refl (or_introl eq_refl)).
  - apply (@format_display_name_degraded (py "broken") (py "broken") [] []
             eq_refl (or_introl eq_refl)).
    left. rewrite <- contains_false. reflexivity.
Defined.

(** ** More on stripping *)

Lemma lstrip_decomp (s : str) :
  exists sp, s = sp ++ lstrip s /\ forallb isspace sp = true.
Proof.
  induction s as [|c s (sp & E & Hsp)]; simpl.
  - exists []. auto.
  - destruct (isspace c) eqn:Hc.
    + exists (c :: sp). simpl. rewrite Hc, Hsp. split; [congruence | reflexivity].
    + exists []. auto.
Qed.

Lemma lstrip_fixed (s : str) :
  (forall c t, s = c :: t -> isspace c = false) -> lstrip s = s.
Proof.
  destruct s as [|c t]; [reflexivity|]. intros H. simpl.
  now rewrite (H c t eq_refl).
Qed.

Lemma strip_head (s t : str) (c : char) :
  strip s = c :: t -> isspace c = false.
Proof.
  unfold strip, rstrip. intros H.
  destruct (lstrip_decomp (rev (lstrip s))) as (sp & E & _).
  apply (f_equal (@rev char)) in E. rewrite rev_involutive, rev_app_distr, H in E.
  simpl in E. eapply lstrip_head, E.
Qed.

Lemma strip_idempotent (s : str) : strip (strip s) = strip s.
Proof.
  set (r := strip s).
  assert (Hl : lstrip r = r).
  { apply lstrip_fixed. intros c t E. eapply strip_head, E. }
  unfold strip at 1. rewrite Hl. unfold rstrip.
  rewrite lstrip_fixed; [apply rev_involutive|].
  intros c t E. apply (f_equal (@rev char)) in E. rewrite rev_involutive in E.
  simpl in E. eapply strip_last, E.
Qed.

(** ** Listing the keychain *)

(** X5: every key [get_existing_keys] returns is a non-empty string without
    leading or trailing whitespace, and is a stripped line of the dump. *)
Theorem get_existing_keys_clean (keys : list str) (w w' : world) :
  get_existing_keys w = (Ok keys, w') ->
  exists output,
    keychain_dump w = Ok output
    /\ forall key, In key keys ->
         key <> [] /\ strip key = key
         /\ exists line, In line (split NL (strip output)) /\ key = strip line.
Proof.
  unfold get_existing_keys, try_except, bind, emit, ret, raise. simpl.
  destruct (keychain_dump w) as [output|e]; simpl.
  - intros H. exists output. split; [reflexivity|].
    destruct (truthy output); injection H as <- _; [|intros key []].
    intros key Hin. apply in_map_iff in Hin as (line & <- & Hline).
    apply filter_In in Hline as [Hline Ht].
    split; [destruct (strip line); [discriminate Ht | discriminate]|].
    split; [apply strip_idempotent | eauto].
  - destruct (is_Exception e); discriminate.
Qed.

Lemma get_existing_keys_clean_witness :
  let w := scripted (Ok (py " home|bob@h1 " ++ [NL; NL] ++ py "work|al@h2" ++ [NL]))
                    (Ok (0%Z, [])) [] in
  exists output,
    keychain_dump w = Ok output
    /\ forall key, In key [py "home|bob@h1"; py "work|al@h2"] ->
         key <> [] /\ strip key = key
         /\ exists line, In line (split NL (strip output)) /\ key = strip line.
Proof.
  intros w.
  apply (@get_existing_keys_clean [py "home|bob@h1"; py "work|al@h2"] w
           (snd (get_existing_keys w))).
  reflexivity.
Defined.

(** X6: a dump that is empty or all whitespace lists no keys; it is not an
    error. *)
Theorem get_existing_keys_blank (output : str) (w : world) :
  keychain_dump w = Ok output ->
  strip output = [] ->
  get_existing_keys w = (Ok [], set_trace (trace w ++ [DumpKeychain]) w).
Proof.
  intros Hd Hs. unfold get_existing_keys, try_except, bind, emit, ret. simpl.
  rewrite Hd. destruct (truthy output); [|reflexivity].
  rewrite Hs. reflexivity.
Qed.

Lemma get_existing_keys_blank_witness :
  let w := scripted (Ok (py "  " ++ [NL])) (Ok (0%Z, [])) [] in
  get_existing_keys w = (Ok [], set_trace (trace w ++ [DumpKeychain]) w).
Proof.
  intros w. apply (@get_existing_keys_blank (py "  " ++ [NL]) w); reflexivity.
Defined.

(** X7: [get_existing_keys] raises only a KittenError that carries the text
    of the failure of the dump, or the KeyboardInterrupt the dump raised. *)
Theorem get_existing_keys_raises (e : exn) (w w' : world) :
  get_existing_keys w = (Raise e, w') ->
  exists e0,
    keychain_dump w = Raise e0
    /\ ((is_Exception e0 = true
         /\ e = KittenError (py "Error retrieving keychain keys: " ++ exn_str e0))
        \/ (e0 = KeyboardInterrupt /\ e = KeyboardInterrupt)).
Proof.
  unfold get_existing_keys, try_except, bind, emit, ret, raise. simpl.
  destruct (keychain_dump w) as [output|e0]; simpl.
  - destruct (truthy output); discriminate.
  - intros H. exists e0. split; [reflexivity|].
    destruct e0; simpl in H; injection H as <- _; auto.
Qed.

Lemma get_existing_keys_raises_witness :
  exists e0,
    keychain_dump interrupted_pause = Raise e0
    /\ ((is_Exception e0 = true
         /\ KittenError
              (py "Error retrieving keychain keys: [Errno 2] No such file or directory: 'security'")
            = KittenError (py "Error retrieving keychain keys: " ++ exn_str e0))
        \/ (e0 = KeyboardInterrupt
            /\ KittenError
                 (py "Error retrieving keychain keys: [Errno 2] No such file or directory: 'security'")
               = KeyboardInterrupt)).
Proof.
  apply (@get_existing_keys_raises _ interrupted_pause
           (snd (get_existing_keys interrupted_pause))).
  reflexivity.
Defined.

(** ** Reading from the terminal *)

(** X8: what [kitty_input] returns has no leading or trailing whitespace. *)
Theorem kitty_input_stripped (prompt response : str) (w w' : world) :
  kitty_input prompt w = (Ok response, w') -> strip response = response.
Proof.
  unfold kitty_input, try_except, bind, ret.
  destruct (tty_readline prompt w) as [[line|e] w1].
  - intros H. injection H as <- _. apply strip_idempotent.
  - destruct (is_Exception e); [|discriminate].
    destruct (input prompt w1) as [[line|e'] w2]; [|discriminate].
    intros H. injection H as <- _. apply strip_idempotent.
Qed.

Lemma kitty_input_stripped_witness :
  strip (py "carol") = py "carol".
Proof.
  apply (@kitty_input_stripped (py "Enter SSH username: ") (py "carol")
           (scripted (Ok []) (Ok (0%Z, [])) [TtyLine (Ok (py "  carol " ++ [NL]))])
           (snd (kitty_input (py "Enter SSH username: ")
                   (scripted (Ok []) (Ok (0%Z, []))
                             [TtyLine (Ok (py "  carol " ++ [NL]))])))).
  reflexivity.
Defined.

(** X9: when /dev/tty cannot be opened, or reading it raises an Exception,
    [kitty_input] answers with the stripped line of [input()]; when
    [input()] raises as well, that exception leaves [kitty_input]. *)
Theorem kitty_input_fallback (prompt : str) (e : exn) (r : outcome str)
    (w w1 : world) (rest : list (outcome str)) :
  tty_readline prompt w = (Raise e, w1) ->
  is_Exception e = true ->
  stdin w1 = r :: rest ->
  fst (kitty_input prompt w)
  = match r with
    | Ok line => Ok (strip line)
    | Raise e' => Raise e'
    end.
Proof.
  intros Ht He Hin. unfold kitty_input, try_except, bind. rewrite Ht, He.
  unfold input, bind, emit, ret. simpl. rewrite Hin.
  destruct r; reflexivity.
Qed.

Lemma kitty_input_fallback_witness :
  let w := mkWorld (Ok []) (fun _ => Ok (0%Z, []))
             [TtyOpenFails (OSError (py "[Errno 6] Device not configured: '/dev/tty'"))]
             [Ok (py " yes ")] []
             (fun _ _ => Ok tt) (fun _ => Ok []) (fun _ => Ok tt) (fun _ => Ok tt)
             [] [] in
  fst (kitty_input PRESS_ENTER w) = Ok (py "yes").
Proof.
  intros w.
  apply (@kitty_input_fallback PRESS_ENTER
           (OSError (py "[Errno 6] Device not configured: '/dev/tty'"))
           (Ok (py " yes ")) w (set_tty [] w) []); reflexivity.
Defined.

(** ** More on the selector *)

(** X10: an output "DELETE:" followed by a display name is a delete
    selection whatever the exit status: of the first key with that display
    name when there is one, of the text itself otherwise. *)
Theorem select_delete (keys : list str) (rc : Z) (stdout display_name : str)
    (w : world) :
  fzf w (input_data keys) = Ok (rc, stdout) ->
  strip stdout = DELETE_PREFIX ++ display_name ->
  ((exists key, In key keys /\ format_display_name key = Ok display_name) ->
   exists i key,
     nth_error keys i = Some key
     /\ format_display_name key = Ok display_name
     /\ (forall j key', (j < i)%nat -> nth_error keys j = Some key' ->
                        format_display_name key' <> Ok display_name)
     /\ select_key_with_fzf keys w = (Ok (key, true), ran_fzf keys w))
  /\ ((forall key, In key keys -> format_display_name key <> Ok display_name) ->
      select_key_with_fzf keys w = (Ok (display_name, true), ran_fzf keys w)).
Proof.
  intros Hrun Hout.
  rewrite (select_key_with_fzf_run _ _ Hrun), interpret_delete
    by (rewrite Hout; reflexivity).
  rewrite Hout. change (skipn 7 (DELETE_PREFIX ++ display_name)) with display_name.
  split.
  - intros Hex. apply In_rendered in Hex.
    destruct (find_display (rendered keys) display_name 0) as [i|] eqn:F.
    + destruct (find_display_index _ _ F) as (key & Hnth & Hidx & Hfmt & Hmin).
      exists i, key. rewrite Hidx. repeat split; assumption.
    + apply find_display_None in F. contradiction.
  - intros Hnone.
    destruct (find_display (rendered keys) display_name 0) as [i|] eqn:F;
      [|reflexivity].
    destruct (find_display_index _ _ F) as (key & Hnth & _ & Hfmt & _).
    exfalso. apply (Hnone key); [eapply nth_error_In; eassumption | assumption].
Qed.

Lemma select_delete_witness :
  let keys := [py "home|bob@h1"] in
  let w := scripted (Ok []) (Ok (130%Z, py "DELETE:home|bob@h1" ++ [NL])) [] in
  select_key_with_fzf keys w = (Ok (py "home|bob@h1", true), ran_fzf keys w).
Proof.
  intros keys w.
  apply (proj2 (@select_delete keys 130%Z (py "DELETE:home|bob@h1" ++ [NL])
                  (py "home|bob@h1") w eq_refl eq_refl)).
  intros key [<-|[]]. vm_compute. discriminate.
Defined.

(** X11: without the "DELETE:" prefix, an exit status other than 0, 1 and
    130 gives the empty selection. *)
Theorem select_other_status (keys : list str) (rc : Z) (stdout : str) (w : world) :
  fzf w (input_data keys) = Ok (rc, stdout) ->
  startswith DELETE_PREFIX (strip stdout) = false ->
  rc <> 0%Z -> rc <> 1%Z -> rc <> 130%Z ->
  select_key_with_fzf keys w = (Ok ([], false), ran_fzf keys w).
Proof.
  intros Hrun Hd H0 H1 H130. rewrite (select_key_with_fzf_run _ _ Hrun).
  now apply interpret_other.
Qed.

Lemma select_other_status_witness :
  let keys := [py "home|bob@h1"] in
  let w := scripted (Ok []) (Ok (2%Z, py "home (bob@h1)")) [] in
  select_key_with_fzf keys w = (Ok ([], false), ran_fzf keys w).
Proof.
  intros keys w.
  apply (@select_other_status keys 2%Z (py "home (bob@h1)") w);
    try reflexivity; discriminate.
Defined.

(** X12: on exit status 0 a selection without the delete flag is never free
    text: it is empty or one of the listed keys. *)
Theorem select_on_0_is_listed (keys : list str) (stdout selected : str)
    (w w' : world) :
  fzf w (input_data keys) = Ok (0%Z, stdout) ->
  select_key_with_fzf keys w = (Ok (selected, false), w') ->
  selected = [] \/ In selected keys.
Proof.
  intros Hrun. rewrite (select_key_with_fzf_run _ _ Hrun).
  destruct (startswith DELETE_PREFIX (strip stdout)) eqn:Hd.
  - rewrite interpret_delete by assumption.
    destruct (find_display (rendered keys) (skipn 7 (strip stdout)) 0);
      [destruct (index keys n)|]; discriminate.
  - rewrite interpret_0 by assumption.
    destruct (find_display (rendered keys) (last (split NL (strip stdout)) []) 0)
      as [i|] eqn:F.
    + destruct (find_display_index _ _ F) as (key & Hnth & -> & _).
      intros H. injection H as <- _. right. eapply nth_error_In, Hnth.
    + intros H. injection H as <- _. now left.
Qed.

Lemma select_on_0_is_listed_witness :
  py "home|bob@h1" = [] \/ In (py "home|bob@h1") [py "home|bob@h1"].
Proof.
  apply (@select_on_0_is_listed [py "home|bob@h1"]
           (py "ho" ++ [NL] ++ py "home (bob@h1)") (py "home|bob@h1")
           (scripted (Ok []) (Ok (0%Z, py "ho" ++ [NL] ++ py "home (bob@h1)")) [])
           (snd (select_key_with_fzf [py "home|bob@h1"]
                   (scripted (Ok [])
                      (Ok (0%Z, py "ho" ++ [NL] ++ py "home (bob@h1)")) []))));
    reflexivity.
Defined.

(** X13: when starting fzf fails, [select_key_with_fzf] raises a KittenError:
    with the installation advice and the current PATH for a missing
    executable, with the text of the failure for any other Exception; a
    KeyboardInterrupt goes through unchanged. *)
Theorem select_key_with_fzf_raises (keys : list str) (e : exn) (w w' : world) :
  select_key_with_fzf keys w = (Raise e, w') ->
  exists e0,
    fzf w (input_data keys) = Raise e0
    /\ e = match e0 with
           | FileNotFoundError _ =>
               KittenError (fzf_not_found_message e0 (shell_path w))
           | KeyboardInterrupt => KeyboardInterrupt
           | _ => KittenError (py "Error during fzf selection: " ++ exn_str e0)
           end.
Proof.
  destruct (fzf w (input_data keys)) as [[rc stdout]|e0] eqn:Hrun.
  - rewrite (select_key_with_fzf_run _ _ Hrun).
    destruct (interpret_returns keys rc stdout (ran_fzf keys w)) as (r & w1 & ->).
    discriminate.
  - unfold select_key_with_fzf, try_except, bind, lift, emit, raise.
    rewrite display_names_rendered. fold (input_data keys). simpl fzf.
    rewrite Hrun. intros H. exists e0. split; [reflexivity|].
    destruct e0; simpl in H; injection H as <- _; reflexivity.
Qed.

Lemma select_key_with_fzf_raises_witness :
  let e0 := FileNotFoundError (py "[Errno 2] No such file or directory: 'fzf'") in
  let w := scripted (Ok []) (Raise e0) [] in
  exists e1,
    fzf w (input_data []) = Raise e1
    /\ KittenError (fzf_not_found_message e0 (shell_path w))
       = match e1 with
         | FileNotFoundError _ =>
             KittenError (fzf_not_found_message e1 (shell_path w))
         | KeyboardInterrupt => KeyboardInterrupt
         | _ => KittenError (py "Error during fzf selection: " ++ exn_str e1)
         end.
Proof.
  intros e0 w.
  apply (@select_key_with_fzf_raises [] _ w (snd (select_key_with_fzf [] w))).
  reflexivity.
Defined.

(** ** Changes to the keychain *)

Lemma store_writes_app (a b : list event) :
  store_writes (a ++ b) = store_writes a ++ store_writes b.
Proof. apply filter_app. Qed.

Lemma silent_ret (A : Type) (a : A) : silent (ret a).
Proof. intros w. unfold writes_of. simpl. now rewrite app_nil_r. Qed.

Lemma silent_raise (A : Type) (e : exn) : silent (@raise A e).
Proof. intros w. unfold writes_of. simpl. now rewrite app_nil_r. Qed.

Lemma silent_lift (A : Type) (r : outcome A) : silent (lift r).
Proof. intros w. unfold writes_of. simpl. now rewrite app_nil_r. Qed.

Lemma silent_reader (A : Type) (f : world -> outcome A) :
  silent (fun w => (f w, w)).
Proof. intros w. unfold writes_of. simpl. now rewrite app_nil_r. Qed.

Lemma silent_emit (ev : event) : is_store_write ev = false -> silent (emit ev).
Proof.
  intros H w. unfold writes_of, emit. simpl.
  rewrite store_writes_app. simpl. now rewrite H.
Qed.

Lemma silent_bind (A B : Type) (m : M A) (k : A -> M B) :
  silent m -> (forall a, silent (k a)) -> silent (bind m k).
Proof.
  intros Hm Hk w. specialize (Hm w). unfold writes_of, bind in *.
  destruct (m w) as [[a|e] w1]; simpl in Hm.
  - specialize (Hk a w1). unfold writes_of in Hk. rewrite Hk, Hm.
    now rewrite !app_nil_r.
  - exact Hm.
Qed.

Lemma silent_try (A : Type) (body : M A) (handler : exn -> option (M A)) :
  silent body -> (forall e h, handler e = Some h -> silent h) ->
  silent (try_except body handler).
Proof.
  intros Hb Hh w. specialize (Hb w). unfold writes_of, try_except in *.
  destruct (body w) as [[a|e] w1]; simpl in Hb; [exact Hb|].
  destruct (handler e) as [h|] eqn:E; [|exact Hb].
  specialize (Hh e h E w1). unfold writes_of in Hh. rewrite Hh, Hb.
  now rewrite !app_nil_r.
Qed.

Lemma silent_if (A : Type) (b : bool) (m1 m2 : M A) :
  silent m1 -> silent m2 -> silent (if b then m1 else m2).
Proof. destruct b; auto. Qed.

Lemma silent_print (text : str) : silent (print text).
Proof. now apply silent_emit. Qed.

Lemma silent_eprint (text : str) : silent (eprint text).
Proof. now apply silent_emit. Qed.

Lemma silent_tty_readline (prompt : str) : silent (tty_readline prompt).
Proof.
  intros w. unfold writes_of, tty_readline.
  destruct (tty w) as [|[e|r] rest]; destruct (truthy prompt);
    unfold bind, emit, ret, lift; simpl;
    rewrite ?store_writes_app; simpl; try now rewrite !app_nil_r.
  all: destruct r; simpl; rewrite ?store_writes_app; simpl; now rewrite !app_nil_r.
Qed.

Lemma silent_input (prompt : str) : silent (input prompt).
Proof.
  intros w. unfold writes_of, input, bind, emit. simpl.
  destruct (stdin w) as [|r rest]; simpl;
    rewrite store_writes_app; simpl; now rewrite !app_nil_r.
Qed.

Lemma silent_getpass (prompt : str) : silent (getpass prompt).
Proof.
  intros w. unfold writes_of, getpass, bind, emit. simpl.
  destruct (getpass_in w) as [|r rest]; simpl;
    rewrite store_writes_app; simpl; now rewrite !app_nil_r.
Qed.

Lemma silent_kitty_input (prompt : str) : silent (kitty_input prompt).
Proof.
  unfold kitty_input. apply silent_try.
  - apply silent_bind; [apply silent_tty_readline | intros; apply silent_ret].
  - intros e h H. destruct (is_Exception e); [|discriminate].
    injection H as <-.
    apply silent_bind; [apply silent_input | intros; apply silent_ret].
Qed.

Lemma silent_get_existing_keys : silent get_existing_keys.
Proof.
  unfold get_existing_keys. apply silent_try.
  - apply silent_bind; [now apply silent_emit | intros _].
    apply silent_bind; [apply silent_reader | intros output].
    apply silent_if; apply silent_ret.
  - intros e h H. destruct (is_Exception e); [|discriminate].
    injection H as <-. apply silent_raise.
Qed.

Lemma silent_interpret (keys items : list str) (rc : Z) (stdout : str) :
  silent (interpret keys items rc stdout).
Proof.
  unfold interpret. cbv zeta. apply silent_if.
  - destruct (find_display items (skipn 7 (strip stdout)) 0); [|apply silent_ret].
    apply silent_bind; [apply silent_lift | intros; apply silent_ret].
  - apply silent_if; [apply silent_ret|]. apply silent_if; [|apply silent_if].
    + apply silent_bind; [apply silent_if; [apply silent_lift | apply silent_ret]|].
      intros selected.
      destruct (find_display items selected 0); [|apply silent_ret].
      apply silent_bind; [apply silent_lift | intros key].
      apply silent_bind; [apply silent_eprint | intros; apply silent_ret].
    + apply silent_bind; [apply silent_eprint | intros _].
      apply silent_bind; [|intros; apply silent_ret].
      apply silent_if; [|apply silent_ret].
      apply silent_bind; [apply silent_lift | intros; apply silent_ret].
    + apply silent_ret.
Qed.

Lemma silent_select_key_with_fzf (keys : list str) : silent (select_key_with_fzf keys).
Proof.
  unfold select_key_with_fzf. apply silent_try.
  - apply silent_bind; [apply silent_lift | intros items].
    apply silent_bind; [now apply silent_emit | intros _].
    apply silent_bind; [apply silent_reader | intros [rc stdout]].
    apply silent_interpret.
  - intros e h H.
    destruct e; simpl in H; try discriminate; injection H as <-;
      try apply silent_raise.
    apply silent_bind; [apply silent_reader | intros; apply silent_raise].
Qed.

Lemma silent_warning_banner (service : str) : silent (warning_banner service).
Proof.
  unfold warning_banner.
  apply silent_bind; [apply silent_lift | intros [[n u] h]].
  repeat (apply silent_bind; [apply silent_print | intros _]).
  apply silent_print.
Qed.

Lemma silent_confirm_delete (lower : str -> str) (service : str) :
  silent (confirm_delete lower service).
Proof.
  unfold confirm_delete.
  apply silent_bind; [apply silent_warning_banner | intros _].
  apply silent_bind; [apply silent_kitty_input | intros line].
  apply silent_if; [apply silent_ret|].
  apply silent_bind; [apply silent_print | intros; apply silent_ret].
Qed.

Lemma silent_get_password_from_keychain (service : str) :
  silent (get_password_from_keychain service).
Proof.
  unfold get_password_from_keychain. apply silent_try.
  - apply silent_bind; [now apply silent_emit | intros _].
    apply silent_bind; [apply silent_reader | intros; apply silent_ret].
  - intros e h H. destruct e; try discriminate. injection H as <-.
    apply silent_if; apply silent_raise.
Qed.

Lemma silent_copy_to_clipboard (text : str) : silent (copy_to_clipboard text).
Proof.
  unfold copy_to_clipboard. apply silent_try.
  - apply silent_bind; [now apply silent_emit | intros _]. apply silent_reader.
  - intros e h H. destruct e; try discriminate. injection H as <-.
    apply silent_raise.
Qed.

Lemma silent_step (A : Type) (m : M A) (r : outcome A) (w w1 : world) :
  silent m -> m w = (r, w1) ->
  store_writes (trace w1) = store_writes (trace w).
Proof.
  intros Hm E. specialize (Hm w). unfold writes_of in Hm. rewrite E in Hm.
  simpl in Hm. now rewrite app_nil_r in Hm.
Qed.

Lemma sat_of_silent (A : Type) (P : list event -> Prop) (m : M A) (w : world) :
  P [] -> silent m -> writes_sat P m w.
Proof. intros HP Hm. exists []. split; [apply Hm | exact HP]. Qed.

Lemma sat_bind_silent (A B : Type) (P : list event -> Prop) (m : M A)
    (k : A -> M B) (w : world) :
  P [] -> silent m ->
  (forall a w1, m w = (Ok a, w1) -> writes_sat P (k a) w1) ->
  writes_sat P (bind m k) w.
Proof.
  intros HP Hm Hk. unfold writes_sat, writes_of, bind.
  destruct (m w) as [[a|e] w1] eqn:E.
  - destruct (Hk a w1 eq_refl) as (ws & Hws & HPws). exists ws.
    split; [|exact HPws]. unfold writes_of in Hws.
    now rewrite Hws, (@silent_step _ _ _ _ _ Hm E).
  - exists []. split; [|exact HP]. simpl.
    now rewrite (@silent_step _ _ _ _ _ Hm E), app_nil_r.
Qed.

Lemma writes_of_then_silent (A B : Type) (m : M A) (k : A -> M B) (w : world)
    (ws : list event) :
  writes_of m w ws -> (forall a, silent (k a)) -> writes_of (bind m k) w ws.
Proof.
  intros Hm Hk. unfold writes_of, bind in *.
  destruct (m w) as [[a|e] w1]; simpl in Hm; [|exact Hm].
  specialize (Hk a w1). unfold writes_of in Hk.
  now rewrite Hk, Hm, app_nil_r.
Qed.

Lemma writes_of_delete_ssh_from_keychain (service : str) (w : world) :
  writes_of (delete_ssh_from_keychain service) w [SecurityDelete service].
Proof.
  unfold writes_of, delete_ssh_from_keychain, try_except, bind, emit, lift, print.
  simpl. destruct (security_delete w service) as [[]|e]; simpl.
  - destruct (parse_service_name service) as [[[n u] h]|e]; [|destruct e]; simpl;
      unfold store_writes; rewrite ?filter_app; simpl;
      rewrite ?app_nil_r; reflexivity.
  - destruct e; simpl; unfold store_writes; rewrite ?filter_app; reflexivity.
Qed.

Lemma writes_of_add_ssh_to_keychain (name user host password : str) (w : world) :
  writes_of (add_ssh_to_keychain name user host password) w
            [SecurityAdd (service_key name user host) password].
Proof.
  unfold writes_of, add_ssh_to_keychain, try_except, bind, emit, print. simpl.
  destruct (security_add w (service_key name user host) password) as [[]|e]; simpl.
  - unfold store_writes; rewrite ?filter_app; simpl; now rewrite ?app_nil_r.
  - destruct e; simpl; unfold store_writes; rewrite ?filter_app; reflexivity.
Qed.

Lemma truthy_not_nil (s : str) : truthy s = true -> s <> [].
Proof. destruct s; [discriminate | discriminate]. Qed.

Lemma dispatch_writes_allowed (lower : str -> str) (keys : list str)
    (selected : str) (is_delete : bool) (w : world) :
  writes_sat (allowed_writes keys selected is_delete)
             (dispatch lower keys selected is_delete) w.
Proof.
  assert (H0 : allowed_writes keys selected is_delete []) by (now left).
  unfold dispatch.
  destruct (truthy selected) eqn:Hsel; simpl negb; cbv iota;
    [|apply sat_of_silent; [exact H0 | apply silent_ret]].
  apply truthy_not_nil in Hsel.
  destruct is_delete.
  - destruct (in_list selected keys) eqn:Hin;
      [|apply sat_of_silent; [exact H0 | apply silent_raise]].
    apply in_list_In in Hin.
    apply sat_bind_silent; [exact H0 | apply silent_confirm_delete|].
    intros [|] w1 _.
    + exists [SecurityDelete selected]. split; [|right; left; auto].
      apply writes_of_then_silent; [|intros; apply silent_ret].
      apply writes_of_then_silent; [|intros; apply silent_kitty_input].
      apply writes_of_delete_ssh_from_keychain.
    + apply sat_of_silent; [exact H0|].
      apply silent_bind; [apply silent_kitty_input | intros; apply silent_ret].
  - destruct (in_list selected keys) eqn:Hin.
    + apply sat_of_silent; [exact H0|].
      apply silent_bind; [apply silent_lift | intros [[n u] h]].
      apply silent_if; [apply silent_raise|].
      apply silent_bind; [apply silent_get_password_from_keychain | intros pw].
      apply silent_bind; [apply silent_print | intros _].
      apply silent_bind; [apply silent_copy_to_clipboard | intros _].
      apply silent_bind; [apply silent_print | intros _]. apply silent_ret.
    + apply in_list_false in Hin.
      apply sat_bind_silent; [exact H0 | apply silent_print|]. intros _ w1 _.
      apply sat_bind_silent; [exact H0 | apply silent_kitty_input|].
      intros username w2 _.
      destruct (truthy (strip username)) eqn:Hu; simpl negb; cbv iota;
        [|apply sat_of_silent; [exact H0 | apply silent_raise]].
      apply sat_bind_silent; [exact H0 | apply silent_kitty_input|].
      intros hostname w3 _.
      destruct (truthy (strip hostname)) eqn:Hh; simpl negb; cbv iota;
        [|apply sat_of_silent; [exact H0 | apply silent_raise]].
      apply sat_bind_silent; [exact H0 | apply silent_getpass|].
      intros password w4 _.
      destruct (truthy password) eqn:Hp; simpl negb; cbv iota;
        [|apply sat_of_silent; [exact H0 | apply silent_raise]].
      apply sat_bind_silent; [exact H0 | apply silent_getpass|].
      intros password_confirm w5 _.
      destruct (str_eqb password password_confirm); simpl negb; cbv iota;
        [|apply sat_of_silent; [exact H0 | apply silent_raise]].
      exists [SecurityAdd (service_key selected (strip username) (strip hostname))
                          password].
      split.
      * apply writes_of_then_silent; [apply writes_of_add_ssh_to_keychain|].
        intros _. apply silent_bind; [apply silent_kitty_input|].
        intros; apply silent_ret.
      * right; right. exists (strip username), (strip hostname), password.
        repeat split; auto using truthy_not_nil.
Qed.

(** X14: whatever the collaborators answer, the flow that follows a
    selection changes the keychain at most once: it deletes the selected
    key, which is then a listed key selected for deletion, or it adds an
    entry for the selected name, which is then not listed and comes with a
    non-empty user, host and password. *)
Theorem dispatch_store_writes (lower : str -> str) (keys : list str)
    (selected : str) (is_delete : bool) (w : world) :
  exists ws,
    store_writes (trace (snd (dispatch lower keys selected is_delete w)))
    = store_writes (trace w) ++ ws
    /\ allowed_writes keys selected is_delete ws.
Proof.
  destruct (dispatch_writes_allowed lower keys selected is_delete w)
    as (ws & Hws & Hallowed).
  exists ws. split; [exact Hws | exact Hallowed].
Qed.

Lemma silent_main_except (lower : str -> str) (e : exn) (h : M str) :
  main_except e = Some h -> silent h.
Proof.
  assert (Hs : forall msg,
             silent (eprint msg;; kitty_input PRESS_ENTER;; ret (@nil char))).
  { intros msg. apply silent_bind; [apply silent_eprint | intros _].
    apply silent_bind; [apply silent_kitty_input | intros; apply silent_ret]. }
  destruct e; simpl; intros H; injection H as <-; try apply Hs.
  apply silent_ret.
Qed.

Lemma writes_of_try (A : Type) (body : M A) (handler : exn -> option (M A))
    (w : world) (ws : list event) :
  writes_of body w ws -> (forall e h, handler e = Some h -> silent h) ->
  writes_of (try_except body handler) w ws.
Proof.
  intros Hb Hh. unfold writes_of, try_except in *.
  destruct (body w) as [[a|e] w1]; simpl in Hb; [exact Hb|].
  destruct (handler e) as [h|] eqn:E; [|exact Hb].
  specialize (Hh e h E w1). unfold writes_of in Hh.
  now rewrite Hh, Hb, app_nil_r.
Qed.

(** X15: a run of [main] changes the keychain at most once, and only as
    the selection allows: it deletes a key that [get_existing_keys] listed,
    or adds an entry under a name that was not listed. *)
Theorem main_store_writes (lower : str -> str) (w : world) :
  exists ws,
    store_writes (trace (snd (main lower w))) = store_writes (trace w) ++ ws
    /\ (ws = []
        \/ exists keys selected is_delete,
             fst (get_existing_keys w) = Ok keys
             /\ allowed_writes keys selected is_delete ws).
Proof.
  set (P := fun ws : list event =>
              ws = []
              \/ exists keys selected is_delete,
                   fst (get_existing_keys w) = Ok keys
                   /\ allowed_writes keys selected is_delete ws).
  assert (H0 : P []) by (now left).
  assert (Htry : writes_sat P (main_try lower) w).
  { unfold main_try.
    apply sat_bind_silent; [exact H0 | apply silent_get_existing_keys|].
    intros keys w1 Hk.
    apply sat_bind_silent; [exact H0 | apply silent_select_key_with_fzf|].
    intros [selected is_delete] w2 _.
    destruct (dispatch_writes_allowed lower keys selected is_delete w2)
      as (ws & Hws & Hallowed).
    exists ws. split; [exact Hws|]. right. exists keys, selected, is_delete.
    rewrite Hk. auto. }
  destruct Htry as (ws & Hws & HP). exists ws. split; [|exact HP].
  change (writes_of (main lower) w ws).
  unfold main. apply writes_of_try; [exact Hws|].
  intros e h. apply silent_main_except. exact lower.
Qed.

(** *** Deleting *)

Lemma dispatch_delete_listed (lower : str -> str) (keys : list str) (selected : str) :
  selected <> [] -> In selected keys ->
  dispatch lower keys selected true
  = (confirmed <- confirm_delete lower selected;;
     (if confirmed
      then delete_ssh_from_keychain selected;;
           kitty_input PRESS_ENTER
      else kitty_input PRESS_ENTER);;
     ret []).
Proof.
  intros Hne Hin. unfold dispatch. destruct selected as [|c selected]; [congruence|].
  apply in_list_In in Hin. now rewrite Hin.
Qed.

(** X16: when the confirmation is declined, the deletion flow only waits
    for Enter and returns the empty string; nothing is deleted. *)
Theorem delete_declined (lower : str -> str) (keys : list str) (selected : str)
    (w w1 : world) :
  selected <> [] -> In selected keys ->
  confirm_delete lower selected w = (Ok false, w1) ->
  dispatch lower keys selected true w = (kitty_input PRESS_ENTER;; ret []) w1
  /\ store_writes (trace (snd (dispatch lower keys selected true w)))
     = store_writes (trace w).
Proof.
  intros Hne Hin Hc.
  assert (E : dispatch lower keys selected true w
              = (kitty_input PRESS_ENTER;; ret []) w1).
  { rewrite dispatch_delete_listed by assumption. unfold bind at 1. rewrite Hc.
    reflexivity. }
  split; [exact E|]. rewrite E.
  assert (Hs : silent ((kitty_input PRESS_ENTER;; ret []) : M str)).
  { apply silent_bind; [apply silent_kitty_input | intros; apply silent_ret]. }
  specialize (Hs w1). unfold writes_of in Hs. rewrite Hs, app_nil_r.
  apply (@silent_step _ _ _ _ _ (silent_confirm_delete lower selected) Hc).
Qed.

Lemma delete_declined_witness :
  let w := scripted (Ok []) (Ok (0%Z, [])) [TtyLine (Ok (py "n" ++ [NL]))] in
  let keys := [py "home|bob@h1"] in
  let w1 := snd (confirm_delete ascii_lower (py "home|bob@h1") w) in
  dispatch ascii_lower keys (py "home|bob@h1") true w
  = (kitty_input PRESS_ENTER;; ret []) w1
  /\ store_writes (trace (snd (dispatch ascii_lower keys (py "home|bob@h1") true w)))
     = store_writes (trace w).
Proof.
  intros w keys w1.
  apply (@delete_declined ascii_lower keys (py "home|bob@h1") w w1).
  - discriminate.
  - left. reflexivity.
  - reflexivity.
Defined.

(** X17: when the deletion is confirmed the delete command runs for the
    selected key; if it succeeds the success line is printed and the flow
    waits for Enter, and if it fails with a non-zero exit the flow raises a
    KittenError that carries the command's stderr. *)
Theorem delete_confirmed (lower : str -> str) (keys : list str)
    (selected name user host : str) (w w1 : world) :
  selected <> [] -> In selected keys ->
  confirm_delete lower selected w = (Ok true, w1) ->
  parse_service_name selected = Ok (name, user, host) ->
  (security_delete w1 selected = Ok tt ->
   dispatch lower keys selected true w
   = (kitty_input PRESS_ENTER;; ret [])
       (logged [SecurityDelete selected;
                StdoutWrite ((CHECK_MARK ++ py " SSH connection '" ++ name
                              ++ py "' (" ++ user ++ py "@" ++ host
                              ++ py ") deleted successfully") ++ [NL])] w1))
  /\ (forall msg stderr,
         security_delete w1 selected = Raise (CalledProcessError msg stderr) ->
         dispatch lower keys selected true w
         = (Raise (KittenError
                     (py "Error deleting SSH connection from keychain: " ++ stderr)),
            logged [SecurityDelete selected] w1)).
Proof.
  intros Hne Hin Hc Hparse.
  assert (E : dispatch lower keys selected true w
              = ((delete_ssh_from_keychain selected;; kitty_input PRESS_ENTER);;
                 ret []) w1).
  { rewrite dispatch_delete_listed by assumption. unfold bind at 1.
    now rewrite Hc. }
  rewrite E. split.
  - intros Hd.
    unfold delete_ssh_from_keychain, try_except, bind, emit, lift, print.
    simpl. rewrite Hd, Hparse. simpl.
    rewrite <- app_assoc. reflexivity.
  - intros msg stderr Hd.
    unfold delete_ssh_from_keychain, try_except, bind, emit, lift, print, raise.
    simpl. rewrite Hd. reflexivity.
Qed.

Lemma delete_confirmed_witness :
  let w := scripted (Ok []) (Ok (0%Z, [])) [TtyLine (Ok [NL])] in
  let keys := [py "home|bob@h1"] in
  let w1 := snd (confirm_delete ascii_lower (py "home|bob@h1") w) in
  dispatch ascii_lower keys (py "home|bob@h1") true w
  = (kitty_input PRESS_ENTER;; ret [])
      (logged [SecurityDelete (py "home|bob@h1");
               StdoutWrite ((CHECK_MARK ++ py " SSH connection '" ++ py "home"
                             ++ py "' (" ++ py "bob" ++ py "@" ++ py "h1"
                             ++ py ") deleted successfully") ++ [NL])] w1).
Proof.
  intros w keys w1.
  apply (proj1 (@delete_confirmed ascii_lower keys (py "home|bob@h1")
                  (py "home") (py "bob") (py "h1") w w1
                  ltac:(discriminate) (or_introl eq_refl) eq_refl eq_refl)).
  reflexivity.
Defined.

(** *** Connecting *)

Lemma dispatch_connect_listed (lower : str -> str) (keys : list str) (selected : str) :
  selected <> [] -> In selected keys ->
  dispatch lower keys selected false
  = ('(friendly_name, username, hostname) <- lift (parse_service_name selected);;
     if negb (truthy username) || negb (truthy hostname)
     then raise (KittenError
                   (py "Invalid SSH connection format for '" ++ selected ++ py "'"))
     else
       password <- get_password_from_keychain selected;;
       print (CHECK_MARK ++ py " Connecting to '" ++ friendly_name ++ py "' ("
              ++ username ++ py "@" ++ hostname ++ py ")");;
       copy_to_clipboard password;;
       print (CHECK_MARK
              ++ py " Password copied to clipboard - paste it when prompted (Cmd+V)");;
       ret (ssh_command username hostname)).
Proof.
  intros Hne Hin. unfold dispatch. destruct selected as [|c selected]; [congruence|].
  apply in_list_In in Hin. now rewrite Hin.
Qed.

(** X18: selecting a listed key that decodes to a user and a host looks the
    password up under that key, puts the stripped password on the
    clipboard, and returns the ssh command line for user@host. *)
Theorem connect_existing (lower : str -> str) (keys : list str)
    (selected name user host stdout : str) (w : world) :
  In selected keys ->
  parse_service_name selected = Ok (name, user, host) ->
  user <> [] -> host <> [] ->
  security_find w selected = Ok stdout ->
  pbcopy w (strip stdout) = Ok tt ->
  dispatch lower keys selected false w
  = (Ok (ssh_command user host),
     logged [SecurityFind selected;
             StdoutWrite ((CHECK_MARK ++ py " Connecting to '" ++ name ++ py "' ("
                           ++ user ++ py "@" ++ host ++ py ")") ++ [NL]);
             Pbcopy (strip stdout);
             StdoutWrite ((CHECK_MARK
                           ++ py " Password copied to clipboard - paste it when prompted (Cmd+V)")
                          ++ [NL])] w).
Proof.
  intros Hin Hparse Hu Hh Hfind Hcopy.
  assert (Hne : selected <> []).
  { intros ->. vm_compute in Hparse. injection Hparse as _ E _.
    apply Hu. now symmetry. }
  rewrite dispatch_connect_listed by assumption.
  unfold bind at 1. unfold lift. rewrite Hparse.
  destruct user as [|cu user]; [congruence|].
  destruct host as [|ch host]; [congruence|]. simpl truthy. simpl negb. simpl orb.
  cbv iota.
  unfold get_password_from_keychain, copy_to_clipboard, try_except, bind, emit,
    print, ret. simpl. rewrite Hfind. simpl. rewrite Hcopy.
  unfold logged, set_trace. simpl. rewrite <- !app_assoc. reflexivity.
Qed.

Lemma connect_existing_witness :
  let w := mkWorld (Ok []) (fun _ => Ok (0%Z, [])) [] [] []
             (fun _ _ => Ok tt) (fun _ => Ok (py "pw1" ++ [NL]))
             (fun _ => Ok tt) (fun _ => Ok tt) [] [] in
  fst (dispatch ascii_lower [py "home|bob@h1"] (py "home|bob@h1") false w)
  = Ok (ssh_command (py "bob") (py "h1")).
Proof.
  intros w.
  rewrite (@connect_existing ascii_lower [py "home|bob@h1"] (py "home|bob@h1")
             (py "home") (py "bob") (py "h1") (py "pw1" ++ [NL]) w);
    try reflexivity; try discriminate.
  left. reflexivity.
Defined.

(** X19: selecting a listed key that decodes to an empty user or an empty
    host raises the invalid-format error before the keychain or the
    clipboard is touched. *)
Theorem connect_malformed (lower : str -> str) (keys : list str)
    (selected name user host : str) (w : world) :
  selected <> [] -> In selected keys ->
  parse_service_name selected = Ok (name, user, host) ->
  user = [] \/ host = [] ->
  dispatch lower keys selected false w
  = (Raise (KittenError
              (py "Invalid SSH connection format for '" ++ selected ++ py "'")),
     w).
Proof.
  intros Hne Hin Hparse Hempty.
  rewrite dispatch_connect_listed by assumption.
  unfold bind at 1. unfold lift. rewrite Hparse.
  destruct Hempty as [-> | ->]; [reflexivity|].
  destruct (truthy user); reflexivity.
Qed.

Lemma connect_malformed_witness :
  dispatch ascii_lower [py "broken"] (py "broken") false
           (scripted (Ok []) (Ok (0%Z, [])) [])
  = (Raise (KittenError
              (py "Invalid SSH connection format for '" ++ py "broken" ++ py "'")),
     scripted (Ok []) (Ok (0%Z, [])) []).
Proof.
  apply (@connect_malformed ascii_lower [py "broken"] (py "broken")
           (py "broken") [] []).
  - discriminate.
  - left. reflexivity.
  - reflexivity.
  - left. reflexivity.
Defined.

(** X20: when the password lookup exits non-zero, the error depends on the
    command's stderr: with an empty stderr it is the KittenError "Could not
    retrieve password for '<key>'"; with a non-empty stderr the handler's
    [e.stderr.decode()] fails on the [str] that [text=True] produces and an
    AttributeError is raised in its place. *)
Theorem get_password_failure (service msg stderr : str) (w : world) :
  security_find w service = Raise (CalledProcessError msg stderr) ->
  get_password_from_keychain service w
  = (Raise (if truthy stderr
            then AttributeError (py "'str' object has no attribute 'decode'")
            else KittenError
                   (py "Could not retrieve password for '" ++ service ++ py "'")),
     logged [SecurityFind service] w).
Proof.
  intros Hfind.
  unfold get_password_from_keychain, try_except, bind, emit, raise. simpl.
  rewrite Hfind. destruct (truthy stderr); reflexivity.
Qed.

Lemma get_password_failure_witness :
  let w := mkWorld (Ok []) (fun _ => Ok (0%Z, [])) [] [] []
             (fun _ _ => Ok tt)
             (fun _ => Raise (CalledProcessError
                                (py "Command '['security', 'find-generic-password']' returned non-zero exit status 44.")
                                (py "security: SecKeychainSearchCopyNext: The specified item could not be found in the keychain.")))
             (fun _ => Ok tt) (fun _ => Ok tt) [] [] in
  get_password_from_keychain (py "home|bob@h1") w
  = (Raise (AttributeError (py "'str' object has no attribute 'decode'")),
     logged [SecurityFind (py "home|bob@h1")] w).
Proof.
  intros w.
  apply (@get_password_failure (py "home|bob@h1") _ _ w eq_refl).
Defined.

(** *** Creating *)

Lemma dispatch_create_new (lower : str -> str) (keys : list str) (selected : str) :
  selected <> [] -> ~ In selected keys ->
  dispatch lower keys selected false
  = (print (NL :: py " Creating new SSH connection: " ++ selected);;
     username <- kitty_input (py "Enter SSH username: ");;
     let username := strip username in
     if negb (truthy username)
     then raise (KittenError (py "Username cannot be empty"))
     else
       hostname <- kitty_input (py "Enter SSH hostname: ");;
       let hostname := strip hostname in
       if negb (truthy hostname)
       then raise (KittenError (py "Hostname cannot be empty"))
       else
         password <- getpass (py "Enter SSH password (hidden): ");;
         if negb (truthy password)
         then raise (KittenError (py "Password cannot be empty"))
         else
           password_confirm <- getpass (py "Confirm password: ");;
           if negb (str_eqb password password_confirm)
           then raise (KittenError (py "Passwords do not match"))
           else
             add_ssh_to_keychain selected username hostname password;;
             kitty_input PRESS_ENTER;;
             ret []).
Proof.
  intros Hne Hin. unfold dispatch. destruct selected as [|c selected]; [congruence|].
  apply in_list_false in Hin. now rewrite Hin.
Qed.

Lemma kitty_input_result_stripped (prompt response : str) (w w' : world) :
  kitty_input prompt w = (Ok response, w') -> strip response = response.
Proof.
  unfold kitty_input, try_except, bind, ret.
  destruct (tty_readline prompt w) as [[line|e] w1].
  - intros H. injection H as <- _. apply strip_idempotent.
  - destruct (is_Exception e); [|discriminate].
    destruct (input prompt w1) as [[line|e'] w2]; [|discriminate].
    intros H. injection H as <- _. apply strip_idempotent.
Qed.

Lemma truthy_true (s : str) : s <> [] -> truthy s = true.
Proof. destruct s; [congruence | reflexivity]. Qed.

Lemma bind_Ok (A B : Type) (m : M A) (k : A -> M B) (a : A) (w w1 : world) :
  m w = (Ok a, w1) -> bind m k w = k a w1.
Proof. intros H. unfold bind. now rewrite H. Qed.

Lemma print_run (text : str) (w : world) :
  print text w = (Ok tt, logged [StdoutWrite (text ++ [NL])] w).
Proof. reflexivity. Qed.

Lemma create_after_host (lower : str -> str) (keys : list str)
    (selected user host : str) (w w1 w2 : world) :
  selected <> [] -> ~ In selected keys ->
  kitty_input (py "Enter SSH username: ")
    (logged [StdoutWrite ((NL :: py " Creating new SSH connection: " ++ selected)
                          ++ [NL])] w)
  = (Ok user, w1) ->
  kitty_input (py "Enter SSH hostname: ") w1 = (Ok host, w2) ->
  user <> [] -> host <> [] ->
  dispatch lower keys selected false w
  = (password <- getpass (py "Enter SSH password (hidden): ");;
     if negb (truthy password)
     then raise (KittenError (py "Password cannot be empty"))
     else
       password_confirm <- getpass (py "Confirm password: ");;
       if negb (str_eqb password password_confirm)
       then raise (KittenError (py "Passwords do not match"))
       else
         add_ssh_to_keychain selected user host password;;
         kitty_input PRESS_ENTER;;
         ret ([] : str)) w2.
Proof.
  intros Hne Hin Hu Hh Hue Hhe.
  rewrite dispatch_create_new by assumption.
  rewrite (@bind_Ok _ _ _ _ _ _ _ (print_run _ w)).
  rewrite (@bind_Ok _ _ _ _ _ _ _ Hu). cbv zeta.
  rewrite (kitty_input_result_stripped _ _ Hu), (truthy_true Hue).
  change (negb true) with false. cbv iota.
  rewrite (@bind_Ok _ _ _ _ _ _ _ Hh). cbv zeta.
  rewrite (kitty_input_result_stripped _ _ Hh), (truthy_true Hhe).
  reflexivity.
Qed.

(** X21: for a selected name that is not listed, a non-empty user, host and
    password, the password typed twice alike, the entry is stored under
    "name|user@host" with that password; when the command succeeds the
    success line is printed and the flow waits for Enter. *)
Theorem create_new (lower : str -> str) (keys : list str)
    (selected user host password : str) (w w1 w2 w3 w4 : world) :
  selected <> [] -> ~ In selected keys ->
  kitty_input (py "Enter SSH username: ")
    (logged [StdoutWrite ((NL :: py " Creating new SSH connection: " ++ selected)
                          ++ [NL])] w)
  = (Ok user, w1) ->
  kitty_input (py "Enter SSH hostname: ") w1 = (Ok host, w2) ->
  getpass (py "Enter SSH password (hidden): ") w2 = (Ok password, w3) ->
  getpass (py "Confirm password: ") w3 = (Ok password, w4) ->
  user <> [] -> host <> [] -> password <> [] ->
  security_add w4 (service_key selected user host) password = Ok tt ->
  dispatch lower keys selected false w
  = (kitty_input PRESS_ENTER;; ret [])
      (logged [SecurityAdd (service_key selected user host) password;
               StdoutWrite ((CHECK_MARK ++ py " SSH connection '" ++ selected
                             ++ py "' (" ++ user ++ py "@" ++ host
                             ++ py ") added successfully") ++ [NL])] w4).
Proof.
  intros Hne Hin Hu Hh Hp Hc Hue Hhe Hpe Hadd.
  rewrite (@create_after_host lower keys _ _ _ _ _ _ Hne Hin Hu Hh Hue Hhe).
  rewrite (@bind_Ok _ _ _ _ _ _ _ Hp), (truthy_true Hpe). change (negb true) with false. cbv iota.
  rewrite (@bind_Ok _ _ _ _ _ _ _ Hc), str_eqb_refl. change (negb true) with false. cbv iota.
  assert (E : add_ssh_to_keychain selected user host password w4
              = (Ok tt,
                 logged [SecurityAdd (service_key selected user host) password;
                         StdoutWrite ((CHECK_MARK ++ py " SSH connection '"
                                       ++ selected ++ py "' (" ++ user ++ py "@"
                                       ++ host ++ py ") added successfully")
                                      ++ [NL])] w4)).
  { unfold add_ssh_to_keychain, try_except, bind, emit, print. simpl.
    rewrite Hadd. unfold logged, set_trace. simpl.
    rewrite <- app_assoc. reflexivity. }
  now rewrite (@bind_Ok _ _ _ _ _ _ _ E).
Qed.

Lemma create_new_witness :
  let w := mkWorld (Ok []) (fun _ => Ok (0%Z, []))
             [TtyLine (Ok (py "carol" ++ [NL])); TtyLine (Ok (py "h2" ++ [NL]))]
             [] [Ok (py "s3cr3t"); Ok (py "s3cr3t")]
             (fun _ _ => Ok tt) (fun _ => Ok []) (fun _ => Ok tt) (fun _ => Ok tt)
             [] [] in
  exists w4,
    dispatch ascii_lower [py "home|bob@h1"] (py "office") false w
    = (kitty_input PRESS_ENTER;; ret [])
        (logged [SecurityAdd (py "office|carol@h2") (py "s3cr3t");
                 StdoutWrite ((CHECK_MARK ++ py " SSH connection '" ++ py "office"
                               ++ py "' (" ++ py "carol" ++ py "@" ++ py "h2"
                               ++ py ") added successfully") ++ [NL])] w4).
Proof.
  intros w.
  pose (w0 := logged [StdoutWrite ((NL :: py " Creating new SSH connection: "
                                       ++ py "office") ++ [NL])] w).
  pose (w1 := snd (kitty_input (py "Enter SSH username: ") w0)).
  pose (w2 := snd (kitty_input (py "Enter SSH hostname: ") w1)).
  pose (w3 := snd (getpass (py "Enter SSH password (hidden): ") w2)).
  pose (w4 := snd (getpass (py "Confirm password: ") w3)).
  exists w4.
  apply (@create_new ascii_lower [py "home|bob@h1"] (py "office") (py "carol")
           (py "h2") (py "s3cr3t") w w1 w2 w3 w4);
    try reflexivity; try discriminate.
  intros [H|[]]. discriminate H.
Defined.

(** X22: an empty user, host or password ends the creation with the
    matching "cannot be empty" error right after the prompt that got it, and
    the keychain is not asked to add anything. *)
Theorem create_rejects_empty (lower : str -> str) (keys : list str)
    (selected : str) (w w1 : world) :
  selected <> [] -> ~ In selected keys ->
  (kitty_input (py "Enter SSH username: ")
     (logged [StdoutWrite ((NL :: py " Creating new SSH connection: " ++ selected)
                           ++ [NL])] w)
   = (Ok [], w1) ->
   dispatch lower keys selected false w
   = (Raise (KittenError (py "Username cannot be empty")), w1))
  /\ (forall user w2,
         kitty_input (py "Enter SSH username: ")
           (logged [StdoutWrite ((NL :: py " Creating new SSH connection: "
                                     ++ selected) ++ [NL])] w)
         = (Ok user, w1) ->
         user <> [] ->
         (kitty_input (py "Enter SSH hostname: ") w1 = (Ok [], w2) ->
          dispatch lower keys selected false w
          = (Raise (KittenError (py "Hostname cannot be empty")), w2))
         /\ (forall host w3,
                kitty_input (py "Enter SSH hostname: ") w1 = (Ok host, w2) ->
                host <> [] ->
                getpass (py "Enter SSH password (hidden): ") w2 = (Ok [], w3) ->
                dispatch lower keys selected false w
                = (Raise (KittenError (py "Password cannot be empty")), w3))).
Proof.
  intros Hne Hin. rewrite dispatch_create_new by assumption.
  rewrite (@bind_Ok _ _ _ _ _ _ _ (print_run _ w)).
  split.
  - intros Hu. now rewrite (@bind_Ok _ _ _ _ _ _ _ Hu).
  - intros user w2 Hu Hue. rewrite (@bind_Ok _ _ _ _ _ _ _ Hu). cbv zeta.
    rewrite (kitty_input_result_stripped _ _ Hu), (truthy_true Hue).
    change (negb true) with false. cbv iota. split.
    + intros Hh. now rewrite (@bind_Ok _ _ _ _ _ _ _ Hh).
    + intros host w3 Hh Hhe Hp. rewrite (@bind_Ok _ _ _ _ _ _ _ Hh). cbv zeta.
      rewrite (kitty_input_result_stripped _ _ Hh), (truthy_true Hhe).
      change (negb true) with false. cbv iota. now rewrite (@bind_Ok _ _ _ _ _ _ _ Hp).
Qed.

Lemma create_rejects_empty_witness :
  let w := scripted (Ok []) (Ok (0%Z, [])) [TtyLine (Ok (py "   " ++ [NL]))] in
  exists w1,
    dispatch ascii_lower [] (py "office") false w
    = (Raise (KittenError (py "Username cannot be empty")), w1).
Proof.
  intros w. eexists.
  apply (proj1 (@create_rejects_empty ascii_lower [] (py "office") w _
                  ltac:(discriminate) (fun F => F))).
  reflexivity.
Defined.

(** X23: when the confirmation differs from the password, the creation ends
    with "Passwords do not match" and the keychain is not asked to add
    anything. *)
Theorem create_rejects_mismatch (lower : str -> str) (keys : list str)
    (selected user host password password_confirm : str)
    (w w1 w2 w3 w4 : world) :
  selected <> [] -> ~ In selected keys ->
  kitty_input (py "Enter SSH username: ")
    (logged [StdoutWrite ((NL :: py " Creating new SSH connection: " ++ selected)
                          ++ [NL])] w)
  = (Ok user, w1) ->
  kitty_input (py "Enter SSH hostname: ") w1 = (Ok host, w2) ->
  getpass (py "Enter SSH password (hidden): ") w2 = (Ok password, w3) ->
  getpass (py "Confirm password: ") w3 = (Ok password_confirm, w4) ->
  user <> [] -> host <> [] -> password <> [] ->
  password <> password_confirm ->
  dispatch lower keys selected false w
  = (Raise (KittenError (py "Passwords do not match")), w4)
  /\ store_writes (trace w4) = store_writes (trace w).
Proof.
  intros Hne Hin Hu Hh Hp Hc Hue Hhe Hpe Hdiff. split.
  - rewrite (@create_after_host lower keys _ _ _ _ _ _ Hne Hin Hu Hh Hue Hhe).
    rewrite (@bind_Ok _ _ _ _ _ _ _ Hp), (truthy_true Hpe). change (negb true) with false. cbv iota.
    rewrite (@bind_Ok _ _ _ _ _ _ _ Hc).
    apply str_eqb_neq in Hdiff. now rewrite Hdiff.
  - rewrite (@silent_step _ _ _ _ _ (silent_getpass _) Hc).
    rewrite (@silent_step _ _ _ _ _ (silent_getpass _) Hp).
    rewrite (@silent_step _ _ _ _ _ (silent_kitty_input _) Hh).
    rewrite (@silent_step _ _ _ _ _ (silent_kitty_input _) Hu).
    unfold logged, store_writes. simpl. rewrite filter_app. simpl.
    apply app_nil_r.
Qed.

Lemma create_rejects_mismatch_witness :
  let w := mkWorld (Ok []) (fun _ => Ok (0%Z, []))
             [TtyLine (Ok (py "carol" ++ [NL])); TtyLine (Ok (py "h2" ++ [NL]))]
             [] [Ok (py "s3cr3t"); Ok (py "secret")]
             (fun _ _ => Ok tt) (fun _ => Ok []) (fun _ => Ok tt) (fun _ => Ok tt)
             [] [] in
  exists w4,
    dispatch ascii_lower [py "home|bob@h1"] (py "office") false w
    = (Raise (KittenError (py "Passwords do not match")), w4)
    /\ store_writes (trace w4) = store_writes (trace w).
Proof.
  intros w.
  pose (w0 := logged [StdoutWrite ((NL :: py " Creating new SSH connection: "
                                       ++ py "office") ++ [NL])] w).
  pose (w1 := snd (kitty_input (py "Enter SSH username: ") w0)).
  pose (w2 := snd (kitty_input (py "Enter SSH hostname: ") w1)).
  pose (w3 := snd (getpass (py "Enter SSH password (hidden): ") w2)).
  pose (w4 := snd (getpass (py "Confirm password: ") w3)).
  exists w4.
  apply (@create_rejects_mismatch ascii_lower [py "home|bob@h1"] (py "office")
           (py "carol") (py "h2") (py "s3cr3t") (py "secret") w w1 w2 w3 w4);
    try reflexivity; try discriminate.
  intros [H|[]]. discriminate H.
Defined.

(** ** What [main] returns *)

Lemma returns_ret (A : Type) (P : A -> Prop) (a : A) : P a -> returns_only P (ret a).
Proof. intros H w a' w' E. injection E as <- _. exact H. Qed.

Lemma returns_raise (A : Type) (P : A -> Prop) (e : exn) :
  returns_only P (@raise A e).
Proof. intros w a w' E. discriminate E. Qed.

Lemma returns_bind (A B : Type) (P : B -> Prop) (m : M A) (k : A -> M B) :
  (forall a, returns_only P (k a)) -> returns_only P (bind m k).
Proof.
  intros Hk w b w' E. unfold bind in E.
  destruct (m w) as [[a|e] w1]; [|discriminate]. eapply Hk, E.
Qed.

Lemma returns_if (A : Type) (P : A -> Prop) (b : bool) (m1 m2 : M A) :
  returns_only P m1 -> returns_only P m2 -> returns_only P (if b then m1 else m2).
Proof. destruct b; auto. Qed.

Lemma dispatch_returns (lower : str -> str) (keys : list str) (selected : str)
    (is_delete : bool) :
  returns_only
    (fun s => s = []
              \/ exists name user host,
                   In selected keys
                   /\ parse_service_name selected = Ok (name, user, host)
                   /\ user <> [] /\ host <> []
                   /\ s = ssh_command user host)
    (dispatch lower keys selected is_delete).
Proof.
  unfold dispatch.
  apply returns_if; [apply returns_ret; now left|].
  apply returns_if.
  - apply returns_if; [|apply returns_raise].
    apply returns_bind. intros confirmed. apply returns_bind. intros _.
    apply returns_ret. now left.
  - destruct (in_list selected keys) eqn:Hin.
    + apply in_list_In in Hin. intros w s w' E. unfold bind at 1, lift in E.
      destruct (parse_service_name selected) as [[[name user] host]|e] eqn:Hp;
        [|discriminate].
      destruct (truthy user) eqn:Hu; [|discriminate].
      destruct (truthy host) eqn:Hh; [|discriminate].
      simpl in E. unfold bind in E.
      destruct (get_password_from_keychain selected w) as [[pw|e] w1];
        [|discriminate].
      destruct (print _ w1) as [[[]|e] w2]; [|discriminate].
      destruct (copy_to_clipboard pw w2) as [[[]|e] w3]; [|discriminate].
      destruct (print _ w3) as [[[]|e] w4]; [|discriminate].
      injection E as <- _. right. exists name, user, host.
      repeat split; auto using truthy_not_nil.
    + apply returns_bind. intros _. apply returns_bind. intros username.
      cbv zeta. apply returns_if; [apply returns_raise|].
      apply returns_bind. intros hostname. cbv zeta.
      apply returns_if; [apply returns_raise|].
      apply returns_bind. intros password.
      apply returns_if; [apply returns_raise|].
      apply returns_bind. intros password_confirm.
      apply returns_if; [apply returns_raise|].
      apply returns_bind. intros _. apply returns_bind. intros _.
      apply returns_ret. now left.
Qed.

Lemma main_try_returns (lower : str -> str) (s : str) (w w1 : world) :
  main_try lower w = (Ok s, w1) ->
  s = []
  \/ exists keys key name user host,
       fst (get_existing_keys w) = Ok keys
       /\ In key keys
       /\ parse_service_name key = Ok (name, user, host)
       /\ user <> [] /\ host <> []
       /\ s = ssh_command user host.
Proof.
  intros Htry. unfold main_try, bind in Htry.
  destruct (get_existing_keys w) as [[keys|e] w2] eqn:Hk; [|discriminate].
  destruct (select_key_with_fzf keys w2) as [[[selected is_delete]|e] w3];
    [|discriminate].
  destruct (dispatch_returns lower keys selected is_delete _ Htry)
    as [->|(name & user & host & H)]; [now left|].
  right. exists keys, selected, name, user, host. simpl. tauto.
Qed.

Lemma main_except_returns (e : exn) (h : M str) :
  main_except e = Some h -> returns_only (fun s : str => s = []) h.
Proof.
  assert (Hs : forall msg,
             returns_only (fun s : str => s = [])
                          (eprint msg;; kitty_input PRESS_ENTER;; ret [])).
  { intros msg. apply returns_bind. intros _. apply returns_bind. intros _.
    now apply returns_ret. }
  destruct e; simpl; intros H; injection H as <-; try apply Hs.
  now apply returns_ret.
Qed.

(** X24: what [main] returns is the empty string, or the ssh command line
    for the user and host of a key that [get_existing_keys] listed and that
    decodes to a non-empty user and host. *)
Theorem main_result (lower : str -> str) (s : str) (w w' : world) :
  main lower w = (Ok s, w') ->
  s = []
  \/ exists keys key name user host,
       fst (get_existing_keys w) = Ok keys
       /\ In key keys
       /\ parse_service_name key = Ok (name, user, host)
       /\ user <> [] /\ host <> []
       /\ s = ssh_command user host.
Proof.
  intros E. unfold main, try_except in E.
  destruct (main_try lower w) as [[s0|e] w1] eqn:Htry.
  - injection E as <- <-. eapply main_try_returns, Htry.
  - left. destruct (main_except e) as [h|] eqn:Eh; [|discriminate].
    eapply main_except_returns; eassumption.
Qed.

Lemma main_result_witness :
  let w := mkWorld (Ok (py "home|bob@h1" ++ [NL]))
             (fun _ => Ok (0%Z, py "home (bob@h1)" ++ [NL])) [] [] []
             (fun _ _ => Ok tt) (fun _ => Ok (py "pw1" ++ [NL]))
             (fun _ => Ok tt) (fun _ => Ok tt) [] [] in
  ssh_command (py "bob") (py "h1") = []
  \/ exists keys key name user host,
       fst (get_existing_keys w) = Ok keys
       /\ In key keys
       /\ parse_service_name key = Ok (name, user, host)
       /\ user <> [] /\ host <> []
       /\ ssh_command (py "bob") (py "h1") = ssh_command user host.
Proof.
  intros w.
  apply (@main_result ascii_lower _ w (snd (main ascii_lower w))).
  reflexivity.
Defined.


(** ** The shell environment *)

Lemma join_split (sep : char) (s : str) : join [sep] (split sep s) = s.
Proof.
  induction s as [|c s IH]; [reflexivity|]. simpl split.
  destruct (N.eqb c sep) eqn:E.
  - apply N.eqb_eq in E. subst c.
    destruct (split sep s) as [|l ls] eqn:Es; [now apply split_not_nil in Es|].
    change (join [sep] ([] :: l :: ls)) with (sep :: join [sep] (l :: ls)).
    now rewrite IH.
  - destruct (split sep s) as [|l ls] eqn:Es; [now apply split_not_nil in Es|].
    destruct ls as [|l' ls].
    + simpl in *. now rewrite IH.
    + change (join [sep] ((c :: l) :: l' :: ls))
        with (c :: join [sep] (l :: l' :: ls)).
      now rewrite IH.
Qed.

Lemma split_no_sep (sep : char) (s p : str) :
  In p (split sep s) -> ~ In sep p.
Proof.
  revert p. induction s as [|c s IH]; simpl; intros p H.
  - destruct H as [<-|[]]. auto.
  - destruct (N.eqb c sep) eqn:E.
    + destruct H as [<-|H]; [auto | now apply IH].
    + apply N.eqb_neq in E.
      destruct (split sep s) as [|l ls] eqn:Es.
      * destruct H as [<-|[]]. intros [F|[]]. congruence.
      * destruct H as [<-|H].
        -- intros [F|F]; [congruence|]. apply (IH l); [now left | exact F].
        -- apply IH. now right.
Qed.

Lemma split_absent (sep : char) (s : str) : ~ In sep s -> split sep s = [s].
Proof.
  induction s as [|c s IH]; simpl; intros H; [reflexivity|].
  destruct (N.eqb c sep) eqn:E.
  - apply N.eqb_eq in E. exfalso. apply H. now left.
  - rewrite IH; [reflexivity|]. intros F. apply H. now right.
Qed.

Lemma split_cut (sep : char) (a b : str) :
  ~ In sep a -> split sep (a ++ sep :: b) = a :: split sep b.
Proof.
  induction a as [|c a IH]; simpl; intros H.
  - now rewrite N.eqb_refl.
  - destruct (N.eqb c sep) eqn:E.
    + apply N.eqb_eq in E. exfalso. apply H. now left.
    + rewrite IH; [reflexivity|]. intros F. apply H. now right.
Qed.

(** Joining and splitting again gives the parts back. *)
Lemma split_join (sep : char) (parts : list str) :
  parts <> [] -> (forall p, In p parts -> ~ In sep p) ->
  split sep (join [sep] parts) = parts.
Proof.
  induction parts as [|x parts IH]; [congruence|]. intros _ H.
  destruct parts as [|y parts].
  - simpl. apply split_absent, H. now left.
  - change (join [sep] (x :: y :: parts)) with (x ++ sep :: join [sep] (y :: parts)).
    rewrite split_cut by (apply H; now left).
    rewrite IH; [reflexivity | discriminate|].
    intros p Hp. apply H. now right.
Qed.

Lemma add_brew_paths_app (path_exists : str -> bool) (brew_paths parts : list str) :
  exists added,
    add_brew_paths path_exists brew_paths parts = added ++ parts
    /\ forall b, In b added -> In b brew_paths /\ path_exists b = true.
Proof.
  revert parts. induction brew_paths as [|b rest IH]; intros parts; simpl.
  - exists []. split; [reflexivity | intros b []].
  - destruct (path_exists b && negb (in_list b parts)) eqn:E.
    + destruct (IH (b :: parts)) as (added & -> & Hadded).
      exists (added ++ [b]). split; [now rewrite <- app_assoc|].
      intros x Hx. apply in_app_or in Hx as [Hx|[<-|[]]].
      * destruct (Hadded x Hx). auto.
      * apply andb_true_iff in E as [E _]. auto.
    + destruct (IH parts) as (added & -> & Hadded).
      exists added. split; [reflexivity|].
      intros x Hx. destruct (Hadded x Hx). auto.
Qed.

Lemma add_brew_paths_keeps (path_exists : str -> bool) (brew_paths parts : list str)
    (p : str) :
  In p parts -> In p (add_brew_paths path_exists brew_paths parts).
Proof.
  intros H. destruct (add_brew_paths_app path_exists brew_paths parts)
    as (added & -> & _).
  apply in_or_app. now right.
Qed.

Lemma add_brew_paths_complete (path_exists : str -> bool)
    (brew_paths parts : list str) (b : str) :
  In b brew_paths -> path_exists b = true ->
  In b (add_brew_paths path_exists brew_paths parts).
Proof.
  revert parts. induction brew_paths as [|x rest IH]; intros parts; [intros []|].
  simpl. intros [->|Hin] Hex.
  - apply add_brew_paths_keeps. rewrite Hex. simpl.
    destruct (in_list b parts) eqn:E; simpl; [now apply in_list_In | now left].
  - now apply IH.
Qed.

Lemma add_brew_paths_fixed (path_exists : str -> bool) (brew_paths parts : list str) :
  (forall b, In b brew_paths -> path_exists b = true -> In b parts) ->
  add_brew_paths path_exists brew_paths parts = parts.
Proof.
  induction brew_paths as [|x rest IH]; intros H; [reflexivity|]. simpl.
  destruct (path_exists x) eqn:Hex; simpl.
  - assert (Hin : in_list x parts = true)
      by (apply in_list_In, H; [now left | assumption]).
    rewrite Hin. simpl. apply IH. intros b Hb. apply H. now right.
  - apply IH. intros b Hb. apply H. now right.
Qed.

Lemma dict_get_set (d : dict) (key value default : str) :
  dict_get (dict_set d key value) key default = value.
Proof.
  induction d as [|[k v] d IH]; simpl.
  - now rewrite str_eqb_refl.
  - destruct (str_eqb k key) eqn:E; simpl; now rewrite E.
Qed.

Lemma dict_get_set_other (d : dict) (key value other default : str) :
  other <> key ->
  dict_get (dict_set d key value) other default = dict_get d other default.
Proof.
  intros Hne. induction d as [|[k v] d IH]; simpl.
  - apply not_eq_sym in Hne. apply str_eqb_neq in Hne. now rewrite Hne.
  - destruct (str_eqb k key) eqn:E; simpl.
    + apply str_eqb_eq in E. subst k.
      apply not_eq_sym in Hne. apply str_eqb_neq in Hne. now rewrite Hne.
    + destruct (str_eqb k other); [reflexivity | exact IH].
Qed.

Lemma dict_set_set (d : dict) (key value value' : str) :
  dict_set (dict_set d key value) key value' = dict_set d key value'.
Proof.
  induction d as [|[k v] d IH]; simpl.
  - now rewrite str_eqb_refl.
  - destruct (str_eqb k key) eqn:E; simpl; rewrite E; [reflexivity|].
    now rewrite IH.
Qed.

Lemma join_app_parts (sep : str) (added parts : list str) :
  parts <> [] ->
  join sep (added ++ parts) = flat_map (fun a => a ++ sep) added ++ join sep parts.
Proof.
  intros Hne. induction added as [|a added IH]; [reflexivity|].
  simpl app. destruct (added ++ parts) as [|y ys] eqn:E.
  - apply app_eq_nil in E as [_ E]. contradiction.
  - change (join sep (a :: y :: ys)) with (a ++ sep ++ join sep (y :: ys)).
    rewrite IH. simpl flat_map. now rewrite <- !app_assoc.
Qed.

Lemma homebrew_paths_no_colon (b : str) : In b homebrew_paths -> ~ In COLON b.
Proof.
  intros H. apply contains_false.
  repeat (destruct H as [<-|H]; [reflexivity|]). destruct H.
Qed.

Lemma homebrew_paths_not_empty (b : str) : In b homebrew_paths -> b <> [].
Proof.
  intros H. repeat (destruct H as [<-|H]; [discriminate|]). destruct H.
Qed.

(** X26: [get_shell_env] only puts directories in front of PATH: the new
    PATH ends with the old one, and no other variable changes. *)
Theorem get_shell_env_keeps_path (path_exists : str -> bool) (environ : dict) :
  (exists prefix,
      dict_get (get_shell_env path_exists environ) (py "PATH") []
      = prefix ++ dict_get environ (py "PATH") [])
  /\ (forall name default,
         name <> py "PATH" ->
         dict_get (get_shell_env path_exists environ) name default
         = dict_get environ name default).
Proof.
  unfold get_shell_env. cbv zeta. split.
  - rewrite dict_get_set.
    set (current_path := dict_get environ (py "PATH") []).
    destruct (truthy current_path) eqn:Ht.
    + destruct (add_brew_paths_app path_exists homebrew_paths
                  (split COLON current_path)) as (added & -> & _).
      rewrite join_app_parts by apply split_not_nil.
      rewrite join_split. eauto.
    + destruct current_path; [|discriminate].
      eexists. now rewrite app_nil_r.
  - intros name default Hne. now apply dict_get_set_other.
Qed.

Lemma get_shell_env_keeps_path_witness :
  dict_get (get_shell_env (fun _ => false) [(py "HOME", py "/Users/bob")])
           (py "HOME") []
  = dict_get [(py "HOME", py "/Users/bob")] (py "HOME") [].
Proof.
  apply (proj2 (get_shell_env_keeps_path (fun _ => false)
                  [(py "HOME", py "/Users/bob")])).
  discriminate.
Defined.

Lemma shell_env_parts (path_exists : str -> bool) (environ : dict) :
  let current_path := dict_get environ (py "PATH") [] in
  let parts :=
    add_brew_paths path_exists homebrew_paths
      (if truthy current_path then split COLON current_path else []) in
  (forall p, In p parts -> ~ In COLON p)
  /\ (parts <> [] -> truthy (join [COLON] parts) = true).
Proof.
  intros current_path parts. subst parts.
  destruct (add_brew_paths_app path_exists homebrew_paths
              (if truthy current_path then split COLON current_path else []))
    as (added & -> & Hadded).
  split.
  - intros p Hp. apply in_app_or in Hp as [Hp|Hp].
    + apply homebrew_paths_no_colon. now apply Hadded.
    + destruct (truthy current_path); [|destruct Hp].
      eapply split_no_sep, Hp.
  - intros Hne. destruct added as [|a added].
    + simpl in *. destruct (truthy current_path) eqn:Ht; [|congruence].
      now rewrite join_split.
    + assert (Ha : a <> []) by (apply homebrew_paths_not_empty, Hadded; now left).
      destruct a as [|c a]; [congruence|].
      simpl app. destruct (added ++ _); reflexivity.
Qed.

(** X27: every Homebrew directory that exists is on the PATH that
    [get_shell_env] returns. *)
Theorem get_shell_env_has_homebrew (path_exists : str -> bool) (environ : dict)
    (brew_path : str) :
  In brew_path homebrew_paths -> path_exists brew_path = true ->
  In brew_path
     (split COLON (dict_get (get_shell_env path_exists environ) (py "PATH") [])).
Proof.
  intros Hin Hex. unfold get_shell_env. cbv zeta. rewrite dict_get_set.
  destruct (shell_env_parts path_exists environ) as [Hcolon _]. cbv zeta in Hcolon.
  pose proof (add_brew_paths_complete path_exists homebrew_paths
                (if truthy (dict_get environ (py "PATH") [])
                 then split COLON (dict_get environ (py "PATH") []) else [])
                brew_path Hin Hex) as Hb.
  rewrite split_join; [exact Hb | | exact Hcolon].
  intros E. rewrite E in Hb. destruct Hb.
Qed.

Lemma get_shell_env_has_homebrew_witness :
  In (py "/usr/local/bin")
     (split COLON
        (dict_get (get_shell_env (str_eqb (py "/usr/local/bin"))
                     [(py "PATH", py "/usr/bin:/bin")])
                  (py "PATH") [])).
Proof.
  apply get_shell_env_has_homebrew.
  - right. left. reflexivity.
  - reflexivity.
Defined.

(** X28: [get_shell_env] is idempotent: on its own result it changes
    nothing, so a directory is never put on PATH twice. *)
Theorem get_shell_env_idempotent (path_exists : str -> bool) (environ : dict) :
  get_shell_env path_exists (get_shell_env path_exists environ)
  = get_shell_env path_exists environ.
Proof.
  destruct (shell_env_parts path_exists environ) as [Hcolon Htruthy].
  cbv zeta in Hcolon, Htruthy.
  unfold get_shell_env at 1. cbv zeta.
  unfold get_shell_env. cbv zeta. rewrite dict_get_set, dict_set_set.
  set (parts := add_brew_paths path_exists homebrew_paths
                  (if truthy (dict_get environ (py "PATH") [])
                   then split COLON (dict_get environ (py "PATH") []) else [])) in *.
  f_equal.
  assert (Hfix : add_brew_paths path_exists homebrew_paths parts = parts).
  { apply add_brew_paths_fixed. intros b Hb Hex.
    now apply add_brew_paths_complete. }
  destruct parts as [|x parts'] eqn:Ep.
  - change (join [COLON] []) with (@nil char).
    change (truthy []) with false. cbv iota. now rewrite Hfix.
  - rewrite Htruthy by discriminate.
    rewrite split_join; [|discriminate | exact Hcolon]. now rewrite Hfix.
Qed.

(** ** Finding fzf *)

Lemma first_file_Some (is_file : str -> bool) (paths : list str) (p : str) :
  first_file is_file paths = Some p ->
  exists before after,
    paths = before ++ p :: after
    /\ is_file p = true
    /\ forall q, In q before -> is_file q = false.
Proof.
  induction paths as [|x paths IH]; simpl; [discriminate|].
  destruct (is_file x) eqn:E.
  - intros H. injection H as <-. exists [], paths.
    repeat split; [assumption | intros q []].
  - intros H. destruct (IH H) as (before & after & -> & Hp & Hb).
    exists (x :: before), after. repeat split; [assumption|].
    intros q [<-|Hq]; auto.
Qed.

Lemma first_file_None (is_file : str -> bool) (paths : list str) :
  first_file is_file paths = None -> forall q, In q paths -> is_file q = false.
Proof.
  induction paths as [|x paths IH]; simpl; [intros _ q []|].
  destruct (is_file x) eqn:E; [discriminate|].
  intros H q [<-|Hq]; auto.
Qed.

(** X29: [find_fzf_path] returns the stripped answer of a `which fzf` that
    exited 0 with a non-blank answer, whatever the file system holds; an
    Exception raised by `which` is ignored, as if `which` had found nothing;
    and whatever it returns is never empty and is that answer of `which`,
    or the first of the three common locations that is a file, or the bare
    name "fzf" when none of them is a file. *)
Theorem find_fzf_path_result (which : outcome (Z * str)) (home_fzf : outcome str)
    (is_file : str -> bool) :
  (forall stdout,
      strip stdout <> [] ->
      find_fzf_path (Ok (0%Z, stdout)) home_fzf is_file = Ok (strip stdout))
  /\ (forall e,
         is_Exception e = true ->
         find_fzf_path (Raise e) home_fzf is_file
         = find_fzf_path (Ok (1%Z, [])) home_fzf is_file)
  /\ (forall fzf_cmd,
         (forall home_path, home_fzf = Ok home_path -> home_path <> []) ->
         find_fzf_path which home_fzf is_file = Ok fzf_cmd ->
         fzf_cmd <> []
         /\ ((exists stdout, which = Ok (0%Z, stdout) /\ fzf_cmd = strip stdout)
             \/ exists home_path,
                  home_fzf = Ok home_path
                  /\ ((exists before after,
                          [py "/opt/homebrew/bin/fzf"; py "/usr/local/bin/fzf";
                           home_path] = before ++ fzf_cmd :: after
                          /\ is_file fzf_cmd = true
                          /\ forall q, In q before -> is_file q = false)
                      \/ (fzf_cmd = py "fzf"
                          /\ forall q,
                               In q [py "/opt/homebrew/bin/fzf";
                                     py "/usr/local/bin/fzf"; home_path] ->
                               is_file q = false)))).
Proof.
  split; [|split].
  - intros stdout Hne. unfold find_fzf_path. cbv zeta.
    change (0 =? 0)%Z with true. now rewrite (truthy_true Hne).
  - intros e He. unfold find_fzf_path. cbv zeta. now rewrite He.
  - intros fzf_cmd Hhome. unfold find_fzf_path. cbv zeta.
    assert (Hrest :
              match home_fzf with
              | Ok home_path =>
                  match first_file is_file
                          [py "/opt/homebrew/bin/fzf"; py "/usr/local/bin/fzf";
                           home_path]
                  with
                  | Some fzf_file => Ok fzf_file
                  | None => Ok (py "fzf")
                  end
              | Raise e => Raise e
              end = Ok fzf_cmd ->
              fzf_cmd <> []
              /\ ((exists stdout, which = Ok (0%Z, stdout) /\ fzf_cmd = strip stdout)
                  \/ exists home_path,
                       home_fzf = Ok home_path
                       /\ ((exists before after,
                               [py "/opt/homebrew/bin/fzf"; py "/usr/local/bin/fzf";
                                home_path] = before ++ fzf_cmd :: after
                               /\ is_file fzf_cmd = true
                               /\ forall q, In q before -> is_file q = false)
                           \/ (fzf_cmd = py "fzf"
                               /\ forall q,
                                    In q [py "/opt/homebrew/bin/fzf";
                                          py "/usr/local/bin/fzf"; home_path] ->
                                    is_file q = false)))).
    { destruct home_fzf as [home_path|e]; [|discriminate].
      destruct (first_file is_file _) as [p|] eqn:F.
      - intros H. injection H as <-.
        destruct (first_file_Some _ _ F) as (before & after & E & Hf & Hb).
        split.
        + assert (Hin : In p [py "/opt/homebrew/bin/fzf"; py "/usr/local/bin/fzf";
                              home_path])
            by (rewrite E; apply in_elt).
          destruct Hin as [<-|[<-|[<-|[]]]]; try discriminate. now apply Hhome.
        + right. exists home_path. split; [reflexivity|]. left.
          exists before, after. auto.
      - intros H. injection H as <-. split; [discriminate|].
        right. exists home_path. split; [reflexivity|]. right.
        split; [reflexivity | now apply first_file_None]. }
    destruct which as [[rc stdout]|e].
    + destruct (rc =? 0)%Z eqn:Hrc; simpl; [|exact Hrest].
      destruct (truthy (strip stdout)) eqn:Ht; [|exact Hrest].
      intros H. injection H as <-. apply Z.eqb_eq in Hrc. subst rc.
      split; [now apply truthy_not_nil | eauto].
    + destruct (is_Exception e); [exact Hrest | discriminate].
Qed.

Lemma find_fzf_path_result_witness :
  let which := Raise (FileNotFoundError
                        (py "[Errno 2] No such file or directory: 'which'")) in
  let home_fzf := Ok (py "/Users/bob/.fzf/bin/fzf") in
  let is_file := str_eqb (py "/usr/local/bin/fzf") in
  find_fzf_path (Ok (0%Z, py "/opt/bin/fzf" ++ [NL])) home_fzf is_file
  = Ok (strip (py "/opt/bin/fzf" ++ [NL]))
  /\ find_fzf_path which home_fzf is_file
     = find_fzf_path (Ok (1%Z, [])) home_fzf is_file
  /\ py "/usr/local/bin/fzf" <> [].
Proof.
  intros which home_fzf is_file.
  destruct (find_fzf_path_result which home_fzf is_file) as (Hwhich & Hexc & Hres).
  split; [|split].
  - apply Hwhich. vm_compute. discriminate.
  - apply Hexc. reflexivity.
  - apply (Hres (py "/usr/local/bin/fzf")).
    + intros home_path H. injection H as <-. discriminate.
    + reflexivity.
Defined.

(** ** Handing the result to the window *)

(** X30: after a run of [main] that returns, [handle_result] either does
    nothing, or pastes into the target window the ssh command line for the
    user and host of a listed key and then sends Enter. *)
Theorem handle_result_of_main (lower : str -> str) (s : str) (w w' : world)
    (target_window_id : nat) (window_id_map : nat -> option nat) :
  main lower w = (Ok s, w') ->
  handle_result s target_window_id window_id_map = []
  \/ exists window keys key name user host,
       window_id_map target_window_id = Some window
       /\ fst (get_existing_keys w) = Ok keys
       /\ In key keys
       /\ parse_service_name key = Ok (name, user, host)
       /\ user <> [] /\ host <> []
       /\ handle_result s target_window_id window_id_map
          = [Paste window (ssh_command user host); SendKey window (py "Enter")].
Proof.
  intros E. unfold handle_result.
  destruct (window_id_map target_window_id) as [window|]; [|now left].
  assert (Hs : s = []
               \/ exists keys key name user host,
                    fst (get_existing_keys w) = Ok keys
                    /\ In key keys
                    /\ parse_service_name key = Ok (name, user, host)
                    /\ user <> [] /\ host <> []
                    /\ s = ssh_command user host).
  { unfold main, try_except in E.
    destruct (main_try lower w) as [[s0|e] w1] eqn:Htry.
    - injection E as <- <-. eapply main_try_returns, Htry.
    - left. destruct (main_except e) as [h|] eqn:Eh; [|discriminate].
      eapply main_except_returns; eassumption. }
  destruct Hs as [->|(keys & key & name & user & host & Hk & Hin & Hp & Hu & Hh & ->)].
  - now left.
  - right. exists window, keys, key, name, user, host.
    repeat split; assumption || reflexivity.
Qed.

Lemma handle_result_of_main_witness :
  let w := scripted (Ok (py "home|bob@h1" ++ [NL])) (Ok (130%Z, [])) [] in
  handle_result [] 7 (fun _ => Some 3%nat) = []
  \/ exists window keys key name user host,
       (fun _ : nat => Some 3%nat) 7%nat = Some window
       /\ fst (get_existing_keys w) = Ok keys
       /\ In key keys
       /\ parse_service_name key = Ok (name, user, host)
       /\ user <> [] /\ host <> []
       /\ handle_result [] 7 (fun _ => Some 3%nat)
          = [Paste window (ssh_command user host); SendKey window (py "Enter")].
Proof.
  intros w.
  apply (@handle_result_of_main ascii_lower [] w (snd (main ascii_lower w))).
  reflexivity.
Defined.
